(** * index_safe: range fetch, raw inflate and ordered reassembly

    A shallow embedding of [src/index_safe/extract_metadata.py]:
    [extract_bytes], [json_to_metadata_entries] and [extract_metadata].

    - Python values that come out of [json.load] are the inductive [json];
      a [dict] is an association list in insertion order.
    - A Python exception is a value of [exn]; a call that may raise returns
      [result A].
    - Everything outside the module (the network, the json file, the zlib
      decoder, the helpers of [utils]) is a field of [World].
    - The effects of the module are a log of range requests and the files
      it writes: the record [State], threaded by the monad [M].
    - [ThreadPoolExecutor.map] is a list of futures filled in the order of
      a schedule and read back by position. *)

From Stdlib Require Import ZArith Strings.Byte Ascii String.
From stdpp Require Import base decidable option list strings gmap pretty.

Local Open Scope string_scope.
Local Open Scope list_scope.
Local Open Scope Z_scope.

(** ** Python values and exceptions *)

Definition bytes := list byte.

(** What [json.load] returns. A float keeps the text of its literal. *)
#[warnings="-register-all"]
Inductive json :=
| JNull
| JBool (b : bool)
| JInt (n : Z)
| JFloat (lit : string)
| JStr (s : string)
| JList (l : list json)
| JDict (d : list (string * json)).

(** Who raised an exception that does not come from this module. *)
Inductive library := Botocore | Requests | JsonFile | Utils.

Inductive exn :=
| IndexError
| KeyError (key : json)
| TypeError
| AttributeError
| UnboundLocalError (var : string)
| ZlibError
| OffsetConstructionError
| OSError (msg : string)
| LibraryError (lib : library) (msg : string).

Definition result (A : Type) : Type := exn + A.

Definition ok {A} (a : A) : result A := inr a.
Definition raise {A} (e : exn) : result A := inl e.

Definition rbind {A B} (r : result A) (k : A → result B) : result B :=
  match r with
  | inl e => inl e
  | inr a => k a
  end.

Declare Scope result_scope.
Delimit Scope result_scope with result.
Notation "x ← r ; k" := (rbind r (λ x, k))
  (at level 20, r at level 100, k at level 200, right associativity,
   only parsing) : result_scope.

(** The exceptions of the two transport libraries. *)
Definition is_transport_error (e : exn) : bool :=
  match e with
  | LibraryError Botocore _ | LibraryError Requests _ => true
  | _ => false
  end.

(** ** Python operations on loaded values *)

(** [len(l) + i] for a negative index, [IndexError] out of range. *)
Definition seq_index {A} (l : list A) (i : Z) : result A :=
  let j := if decide (i < 0) then Z.of_nat (length l) + i else i in
  if decide (j < 0) then raise IndexError
  else match l !! Z.to_nat j with
       | Some x => ok x
       | None => raise IndexError
       end.

Fixpoint chars (s : string) : list json :=
  match s with
  | EmptyString => []
  | String c s' => JStr (String c EmptyString) :: chars s'
  end.

Fixpoint dict_get (d : list (string * json)) (k : string) : option json :=
  match d with
  | [] => None
  | (k', v) :: d' => if decide (k' = k) then Some v else dict_get d' k
  end.

(** [v.keys()] *)
Definition py_keys (v : json) : result (list string) :=
  match v with
  | JDict d => ok (d.*1)
  | _ => raise AttributeError
  end.

(** [v[k]] *)
Definition py_getitem (v k : json) : result json :=
  match v with
  | JDict d =>
      match k with
      | JStr s => match dict_get d s with
                  | Some x => ok x
                  | None => raise (KeyError k)
                  end
      | JList _ | JDict _ => raise TypeError
      | _ => raise (KeyError k)
      end
  | JList l =>
      match k with
      | JInt i => seq_index l i
      | JBool b => seq_index l (if b then 1 else 0)
      | _ => raise TypeError
      end
  | JStr s =>
      match k with
      | JInt i => seq_index (chars s) i
      | JBool b => seq_index (chars s) (if b then 1 else 0)
      | _ => raise TypeError
      end
  | _ => raise TypeError
  end.

(** [for key in v] *)
Definition py_iter (v : json) : result (list json) :=
  match v with
  | JDict d => ok (JStr <$> d.*1)
  | JList l => ok l
  | JStr s => ok (chars s)
  | _ => raise TypeError
  end.

(** [l[0]] on a list *)
Definition list_first {A} (l : list A) : result A :=
  match l with
  | [] => raise IndexError
  | x :: _ => ok x
  end.

(** ** The data of [utils] *)

Record Offset := { start : Z; stop : Z }.

Record XmlMetadata := { name : json; slc : string; offset : Offset }.

(** Modelled from the spec: the constructor of [utils.Offset], whose module
    is not among the sources. The spec has a Range as
    [{start: integer, stop: integer > start}] and says that violating
    [stop > start] is a construction error. *)
Definition utils_Offset (a b : json) : result Offset :=
  match a, b with
  | JInt s, JInt e =>
      if decide (e ≤ s) then raise OffsetConstructionError
      else ok {| start := s; stop := e |}
  | _, _ => raise OffsetConstructionError
  end.

(** ** The world outside the module *)

Record Response := { status_code : Z; content : bytes }.

Record World := {
  (** [utils.get_download_url] *)
  get_download_url : string → result string;
  (** [utils.get_credentials] *)
  get_credentials : result json;
  (** [utils.BUCKET] *)
  BUCKET : string;
  (** [open(path)] then [json.load] *)
  json_load : string → result json;
  (** [client.get_object(Bucket, Key, Range)] then [resp['Body'].read()],
      for a client made from the three credentials *)
  s3_get_object : json → json → json → string → string → string → result bytes;
  (** [session.get(url, headers={'Range': r})]: an answer of any status is
      returned, the library raises only when there is no answer *)
  http_get : string → string → result Response;
  (** [zlib.decompressobj(-MAX_WBITS).decompress]; [None] is [zlib.error] *)
  zlib_decompress_raw : bytes → option bytes;
  (** [open(path, 'wb')]: raises when the file cannot be created *)
  open_wb : string → result unit;
  (** [f.write(data)] and the closing of the file: when it raises, [n]
      bytes of [data] have reached the file *)
  file_write : string → bytes → exn * nat + unit
}.

(** The value of the parameter [client] of [extract_bytes]. *)
Inductive client :=
| BaseClient (access_key secret_key token : json)
| Session
| OtherObject.

(** ** Effects: the requests sent and the files written *)

Inductive request :=
| S3GetObject (bucket key range : string)
| HttpGet (url range : string).

Record State := { requests : list request; files : gmap string bytes }.

Inductive outcome (A : Type) :=
| Returned (a : A)
| Raised (e : exn)
| Blocked.
Arguments Returned {A} a.
Arguments Raised {A} e.
Arguments Blocked {A}.

Definition M (A : Type) : Type := State → outcome A * State.

Definition mret {A} (a : A) : M A := λ st, (Returned a, st).

Definition mbind {A B} (m : M A) (k : A → M B) : M B :=
  λ st, match m st with
        | (Returned a, st') => k a st'
        | (Raised e, st') => (Raised e, st')
        | (Blocked, st') => (Blocked, st')
        end.

Definition lift {A} (r : result A) : M A :=
  λ st, match r with
        | inl e => (Raised e, st)
        | inr a => (Returned a, st)
        end.

Definition send (q : request) : M unit :=
  λ st, (Returned tt, {| requests := requests st ++ [q]; files := files st |}).

(** [with open(path, 'wb') as f: f.write(data)]. A failed [open] leaves
    the files as they were; once the file is open it is empty, and it ends
    with [data], or with the part of [data] written before the failure. *)
Definition write_file (W : World) (path : string) (data : bytes) : M unit :=
  λ st,
    match open_wb W path with
    | inl e => (Raised e, st)
    | inr _ =>
        match file_write W path data with
        | inr _ =>
            (Returned tt,
             {| requests := requests st;
                files := <[path := data]> (files st) |})
        | inl (e, n) =>
            (Raised e,
             {| requests := requests st;
                files := <[path := take n data]> (files st) |})
        end
    end.

Declare Scope M_scope.
Delimit Scope M_scope with M.
Notation "x ← m ; k" := (mbind m (λ x, k))
  (at level 20, m at level 100, k at level 200, right associativity,
   only parsing) : M_scope.
Notation "m ;; k" := (mbind m (λ _, k))
  (at level 100, k at level 200, right associativity, only parsing) : M_scope.

(** ** [pathlib]: [Path(url).name] *)

Fixpoint split_sep (sep : ascii) (s : string) : list string :=
  match s with
  | EmptyString => [EmptyString]
  | String c s' =>
      if Ascii.eqb c sep then EmptyString :: split_sep sep s'
      else match split_sep sep s' with
           | [] => [String c EmptyString]
           | w :: ws => String c w :: ws
           end
  end.

(** The parts of a path are its components between slashes, without the
    empty ones and the dots; the name is the last part, or the empty
    string when there is none. *)
Definition Path_name (p : string) : string :=
  let parts :=
    filter (λ x, x ≠ EmptyString ∧ x ≠ ".") (split_sep "/"%char p) in
  default EmptyString (last parts).

(** ** The module *)

(** [tqdm(it, total=n)] draws a progress bar and yields what [it] yields. *)
Definition tqdm {A} (it : A) (total : nat) : A := it.

Section index_safe.
Variable W : World.

(** The f-string [f'bytes={offset.start}-{offset.stop - 1}']. *)
Definition range_header (offset : Offset) : string :=
  "bytes=" +:+ pretty (start offset) +:+ "-" +:+ pretty (stop offset - 1).

(** The two branches of [extract_bytes] that assign [body]; [None] when
    neither is taken and [body] stays unbound. *)
Definition fetch (url : string) (offset : Offset) (c : client)
    : M (option bytes) :=
  match c with
  | BaseClient ak sk tok =>
      (send (S3GetObject (BUCKET W) (Path_name url) (range_header offset));;
       body ← lift (s3_get_object W ak sk tok (BUCKET W) (Path_name url)
                      (range_header offset));
       mret (Some body))%M
  | Session =>
      (send (HttpGet url (range_header offset));;
       resp ← lift (http_get W url (range_header offset));
       mret (Some (content resp)))%M
  | OtherObject => mret None
  end.

(** [zlib.decompressobj(-1 * zlib.MAX_WBITS).decompress(body)] *)
Definition decode (body : bytes) : result bytes :=
  match zlib_decompress_raw W body with
  | Some plain => ok plain
  | None => raise ZlibError
  end.

Definition extract_bytes (url : string) (offset : Offset) (c : client)
    : M bytes :=
  (body ← fetch url offset c;
   body ← lift (match body with
                | Some b => ok b
                | None => raise (UnboundLocalError "body")
                end);
   lift (decode body))%M.

(** [utils.Offset(metadata_dict[key]['offset_start'],
    metadata_dict[key]['offset_stop'])] *)
Definition entry_offset (metadata_dict key : json) : result Offset :=
  (entry ← py_getitem metadata_dict key;
   offset_start ← py_getitem entry (JStr "offset_start");
   entry' ← py_getitem metadata_dict key;
   offset_stop ← py_getitem entry' (JStr "offset_stop");
   utils_Offset offset_start offset_stop)%result.

(** The [for key in metadata_dict] loop, with the list it appends to. *)
Fixpoint metadata_loop (metadata_dict : json) (slc_name : string)
    (keys : list json) (xml_metadatas : list XmlMetadata)
    : result (list XmlMetadata) :=
  match keys with
  | [] => ok xml_metadatas
  | key :: keys' =>
      (offset ← entry_offset metadata_dict key;
       metadata_loop metadata_dict slc_name keys'
         (xml_metadatas ++
            [{| name := key; slc := slc_name; offset := offset |}]))%result
  end.

Definition json_to_metadata_entries (json_path : string)
    : result (list XmlMetadata) :=
  (metadata_dict ← json_load W json_path;
   keys ← py_keys metadata_dict;
   slc_name ← list_first keys;
   metadata_dict ← py_getitem metadata_dict (JStr slc_name);
   keys ← py_iter metadata_dict;
   metadata_loop metadata_dict slc_name keys [])%result.

(** *** [ThreadPoolExecutor.map]

    [map] submits one task per argument, in order, and returns an
    iterator over the futures in submission order. A future is the
    outcome of its task, [Blocked] while the task has not finished. The
    schedule lists the tasks in the order in which the workers finish
    them; a task runs once, and an index that names no task does
    nothing. *)
Section executor.
Context {A B : Type}.
Variable fn : A → M B.
Variable args : list A.

Definition run_task (i : nat) (fs : list (outcome B)) (st : State)
    : list (outcome B) * State :=
  match args !! i, fs !! i with
  | Some a, Some Blocked =>
      let '(r, st') := fn a st in (<[i := r]> fs, st')
  | _, _ => (fs, st)
  end.

Fixpoint run_schedule (sched : list nat) (fs : list (outcome B))
    (st : State) : list (outcome B) * State :=
  match sched with
  | [] => (fs, st)
  | i :: sched' =>
      let '(fs', st') := run_task i fs st in run_schedule sched' fs' st'
  end.

(** [future.result()] on each future in turn: the first exception is
    raised, a future that never finishes is waited for forever. *)
Fixpoint result_iterator (fs : list (outcome B)) : outcome (list B) :=
  match fs with
  | [] => Returned []
  | Returned b :: fs' =>
      match result_iterator fs' with
      | Returned bs => Returned (b :: bs)
      | Raised e => Raised e
      | Blocked => Blocked
      end
  | Raised e :: _ => Raised e
  | Blocked :: _ => Blocked
  end.

Definition executor_map (sched : list nat) : M (list B) :=
  λ st,
    let '(fs, st') :=
      run_schedule sched (replicate (length args) Blocked) st in
    (result_iterator fs, st').
End executor.

(** The [if strategy == 's3' ... elif strategy == 'http'] statement: the
    value of the local [client] after it, [None] when it is unbound. *)
Definition make_client (strategy : string) : result (option client) :=
  if decide (strategy = "s3") then
    (creds ← get_credentials W;
     ak ← py_getitem creds (JStr "accessKeyId");
     sk ← py_getitem creds (JStr "secretAccessKey");
     tok ← py_getitem creds (JStr "sessionToken");
     ok (Some (BaseClient ak sk tok)))%result
  else if decide (strategy = "http") then ok (Some Session)
  else ok None.

Definition extract_metadata (slc_name json_file_path strategy : string)
    (sched : list nat) : M unit :=
  (url ← lift (get_download_url W slc_name);
   metadatas ← lift (json_to_metadata_entries json_file_path);
   let offsets := offset <$> metadatas in
   client ← lift (make_client strategy);
   client ← lift (match client with
                  | Some c => ok c
                  | None => raise (UnboundLocalError "client")
                  end);
   results ← tqdm
     (executor_map (λ o, extract_bytes url o client) offsets sched)
     (length offsets);
   let content := concat results in
   write_file W (slc_name +:+ ".xml") content)%M.
End index_safe.

(** ** Notions used to state the properties *)

Definition add_requests (qs : list request) (st : State) : State :=
  {| requests := requests st ++ qs; files := files st |}.

(** A state in which nothing has happened yet. *)
Definition idle : State := {| requests := []; files := ∅ |}.

(** Every future is pending or holds the outcome [g a] of its own task. *)
Definition consistent {A B} (g : A → outcome B) (args : list A)
    (fs : list (outcome B)) : Prop :=
  Forall2 (λ a r, r = Blocked ∨ r = g a) args fs.

(** Every one of the [n] tasks finishes at some point of the schedule. *)
Definition complete (n : nat) (sched : list nat) : Prop :=
  ∀ i, (i < n)%nat → i ∈ sched.

Section notions.
Variable W : World.

(** What the transport hands back for a range, the calls made to get
    it, and what [extract_bytes] makes of it. *)
Definition fetched (url : string) (o : Offset) (c : client)
    : outcome (option bytes) := (fetch W url o c idle).1.
Definition calls (url : string) (o : Offset) (c : client)
    : list request := requests (fetch W url o c idle).2.
Definition decoded (url : string) (o : Offset) (c : client)
    : outcome bytes := (extract_bytes W url o c idle).1.

(** [buf] is [decode(fetch(range))] for the range of [m]. *)
Definition fragment_bytes (url : string) (c : client) (m : XmlMetadata)
    (buf : bytes) : Prop :=
  ∃ raw, fetched url (offset m) c = Returned (Some raw)
         ∧ decode W raw = ok buf.

(** The statements of [extract_metadata] before the pool is used. *)
Definition preamble (slc_name json_file_path strategy : string)
    : result (string * list XmlMetadata * client) :=
  (url ← get_download_url W slc_name;
   metadatas ← json_to_metadata_entries W json_file_path;
   client ← make_client W strategy;
   match client with
   | Some c => ok (url, metadatas, c)
   | None => raise (UnboundLocalError "client")
   end)%result.
End notions.

(** *** Offset tables from which no fragment set can be built *)

(** The entry has no [offset_start] or no [offset_stop]. *)
Definition lacks_field (entry : json) : Prop :=
  (∃ e, py_getitem entry (JStr "offset_start") = raise e)
  ∨ (∃ e, py_getitem entry (JStr "offset_stop") = raise e).

Inductive malformed : json → Prop :=
| malformed_top (v : json) :
    (∀ d, v ≠ JDict d) → malformed v
| malformed_no_archive :
    malformed (JDict [])
| malformed_not_iterable (slc_name : string) (v : json) rest :
    py_iter v = raise TypeError →
    malformed (JDict ((slc_name, v) :: rest))
| malformed_entry (slc_name : string) inner rest (key : string) entry :
    dict_get inner key = Some entry →
    lacks_field entry →
    malformed (JDict ((slc_name, JDict inner) :: rest)).

(** *** The range header as a server reads it

    A byte range of the range-request protocol is [bytes=first-last],
    two decimal numbers, both positions included. *)

Definition digit_of (c : ascii) : option N :=
  let n := N_of_ascii c in
  if decide (48 ≤ n ∧ n ≤ 57)%N then Some (n - 48)%N else None.

Fixpoint read_digits (s : string) (acc : N) : N * string :=
  match s with
  | EmptyString => (acc, s)
  | String c s' =>
      match digit_of c with
      | Some d => read_digits s' (acc * 10 + d)%N
      | None => (acc, s)
      end
  end.

(** A string that does not begin with a digit. *)
Definition no_digit_ahead (s : string) : Prop :=
  ∀ acc, read_digits s acc = (acc, s).

(** One digit at least. *)
Definition read_number (s : string) : option (N * string) :=
  match s with
  | EmptyString => None
  | String c _ =>
      match digit_of c with
      | Some _ => Some (read_digits s 0%N)
      | None => None
      end
  end.

Fixpoint strip_prefix (p s : string) : option string :=
  match p with
  | EmptyString => Some s
  | String c p' =>
      match s with
      | EmptyString => None
      | String c' s' => if Ascii.eqb c c' then strip_prefix p' s' else None
      end
  end.

Definition read_byte_range (header : string) : option (Z * Z) :=
  match strip_prefix "bytes=" header with
  | None => None
  | Some s =>
      match read_number s with
      | None => None
      | Some (first, s) =>
          match strip_prefix "-" s with
          | None => None
          | Some s =>
              match read_number s with
              | Some (last, EmptyString) =>
                  Some (Z.of_N first, Z.of_N last)
              | _ => None
              end
          end
      end
  end.

(** ** A sample world

    An archive of twelve bytes: two raw streams of six bytes, which inflate
    to [AAAA] and [BBBB]. It is served over HTTP and from the bucket. The
    decoder is the table of the streams it is asked about here. *)
Module Sample.
#[local] Instance byte_eq_dec : EqDecision byte := Byte.byte_eq_dec.

Definition stream_A : bytes := [x73; x74; x74; x74; x04; x00]%byte.
Definition stream_B : bytes := [x73; x72; x72; x72; x02; x00]%byte.
Definition plain_A : bytes := [x41; x41; x41; x41]%byte.
Definition plain_B : bytes := [x42; x42; x42; x42]%byte.

Definition entry (a b : Z) : json :=
  JDict [("offset_start", JInt a); ("offset_stop", JInt b)].

Definition archive1 : json :=
  JDict [("a", entry 0 6); ("b", entry 6 12)].

Definition tables : list (string * json) :=
  [ ("metadata.json", JDict [("ARCHIVE1", archive1)]);
    ("two_archives.json",
      JDict [("ARCHIVE1", archive1);
             ("ARCHIVE2", JDict [("c", entry 0 100)])]);
    ("empty.json", JDict [("ARCHIVE1", JDict [])]);
    ("unreachable.json",
      JDict [("ARCHIVE1",
              JDict [("a", entry 0 6); ("x", entry 100 110);
                     ("b", entry 6 12)])]);
    ("inverted.json",
      JDict [("ARCHIVE1", JDict [("a", entry 0 6); ("b", entry 12 6)])]);
    ("no_stop.json",
      JDict [("ARCHIVE1",
              JDict [("a", JDict [("offset_start", JInt 0)])])]) ].

Definition slice (range : string) : option bytes :=
  if decide (range = "bytes=0-5") then Some stream_A
  else if decide (range = "bytes=6-11") then Some stream_B
  else None.

Definition world : World := {|
  get_download_url := λ slc_name,
    ok ("https://example.org/SLC/" +:+ slc_name +:+ ".zip");
  get_credentials :=
    ok (JDict [("accessKeyId", JStr "AK"); ("secretAccessKey", JStr "SK");
               ("sessionToken", JStr "TOK")]);
  BUCKET := "bucket";
  json_load := λ path,
    match dict_get tables path with
    | Some v => ok v
    | None => raise (LibraryError JsonFile "FileNotFoundError")
    end;
  s3_get_object := λ _ _ _ bucket key range,
    if decide (key = "ARCHIVE1.zip") then
      match slice range with
      | Some b => ok b
      | None => raise (LibraryError Botocore "InvalidRange")
      end
    else raise (LibraryError Botocore "NoSuchKey");
  http_get := λ url range,
    if decide (url = "https://example.org/SLC/ARCHIVE1.zip") then
      match slice range with
      | Some b => ok {| status_code := 206; content := b |}
      | None => raise (LibraryError Requests "ConnectionError")
      end
    else ok {| status_code := 403; content := stream_A |};
  zlib_decompress_raw := λ body,
    if decide (body = stream_A) then Some plain_A
    else if decide (body = stream_B) then Some plain_B
    else None;
  open_wb := λ path,
    if decide (path = "nodir/ARCHIVE1.xml") then
      raise (OSError "FileNotFoundError")
    else ok tt;
  file_write := λ _ _, inr tt
|}.
End Sample.

(** ** [main]

    [parser.parse_args()] is argparse's: it gives the two positional
    arguments, or leaves the program with an exit status. *)
Inductive main_outcome :=
| Exited (status : Z)
| Called (r : outcome unit).

Section main.
Variable W : World.
Variable parse_args : list string → Z + (string * string).

Definition main (argv : list string) (sched : list nat)
    : State → main_outcome * State :=
  λ st,
    match parse_args argv with
    | inl status => (Exited status, st)
    | inr (slc_name, metadata_path) =>
        let '(r, st') :=
          extract_metadata W slc_name metadata_path "s3" sched st in
        (Called r, st')
    end.
End main.

(** ** More notions *)

(** The requests of the tasks whose future is no longer pending. *)
Definition sent {A B} (q : A → list request) (args : list A)
    (fs : list (outcome B)) : list request :=
  concat (zip_with (λ a r, match r with
                           | Blocked => []
                           | _ => q a
                           end) args fs).

Fixpoint has_char (c : ascii) (s : string) : bool :=
  match s with
  | EmptyString => false
  | String c' s' => if Ascii.eqb c' c then true else has_char c s'
  end.

(** The three keys that [extract_metadata] reads from the credentials. *)
Definition credential_keys : list string :=
  ["accessKeyId"; "secretAccessKey"; "sessionToken"].

(** A second sample world: the tables of the first and a few more, and
    credentials without a session token. *)
Module Sample2.
Definition tables : list (string * json) :=
  Sample.tables ++
  [ ("renamed.json", JDict [("SOME_OTHER_NAME", Sample.archive1)]);
    ("array.json", JDict [("ARCHIVE1", JList [JInt 0])]);
    ("empty_array.json", JDict [("ARCHIVE1", JList [])]);
    ("late_failure.json",
      JDict [("ARCHIVE1",
              JDict [("a", Sample.entry 0 6); ("x", Sample.entry 100 110);
                     ("y", Sample.entry 200 210)])]) ].

Definition world : World := {|
  get_download_url := get_download_url Sample.world;
  get_credentials :=
    ok (JDict [("accessKeyId", JStr "AK"); ("secretAccessKey", JStr "SK")]);
  BUCKET := BUCKET Sample.world;
  json_load := λ path,
    match dict_get tables path with
    | Some v => ok v
    | None => raise (LibraryError JsonFile "FileNotFoundError")
    end;
  s3_get_object := s3_get_object Sample.world;
  http_get := λ url range,
    if decide (range = "bytes=200-209") then
      raise (LibraryError Requests "Timeout")
    else http_get Sample.world url range;
  zlib_decompress_raw := zlib_decompress_raw Sample.world;
  open_wb := open_wb Sample.world;
  file_write := λ path data,
    if decide (path = "FULL.xml") then inl (OSError "ENOSPC", 2%nat)
    else inr tt
|}.

Definition parse_args (argv : list string) : Z + (string * string) :=
  match argv with
  | [slc_name; metadata_path] => inr (slc_name, metadata_path)
  | _ => inl 2
  end.
End Sample2.

(** ** The executor returns results by position *)

Section executor_facts.
Context {A B : Type}.
Variable fn : A → M B.
Variable args : list A.
(** The outcome of a task does not depend on when it runs, and a task
    writes no file. *)
Variable g : A → outcome B.
Hypothesis fn_outcome : ∀ a st, (fn a st).1 = g a.
Hypothesis fn_files : ∀ a st, files (fn a st).2 = files st.

Lemma consistent_init : consistent g args (replicate (length args) Blocked).
Proof.
  unfold consistent. induction args as [|a l IH]; simpl; constructor; auto.
Qed.

Lemma consistent_length fs : consistent g args fs → length fs = length args.
Proof. intros H. symmetry. exact (Forall2_length _ _ _ H). Qed.

Lemma run_task_lookup i j fs st :
  (run_task fn args i fs st).1 !! j =
    match args !! i, fs !! i with
    | Some a, Some Blocked => if decide (i = j) then Some (g a) else fs !! j
    | _, _ => fs !! j
    end.
Proof.
  unfold run_task.
  destruct (args !! i) as [a|] eqn:Ha; [|done].
  destruct (fs !! i) as [[b|e|]|] eqn:Hf; try done.
  destruct (fn a st) as [r st'] eqn:Hr. simpl.
  assert (r = g a) as -> by (rewrite <- (fn_outcome a st), Hr; done).
  destruct (decide (i = j)) as [->|Hne].
  - apply list_lookup_insert_eq. by eapply lookup_lt_Some.
  - by apply list_lookup_insert_ne.
Qed.

Lemma run_task_length i fs st :
  length (run_task fn args i fs st).1 = length fs.
Proof.
  unfold run_task.
  destruct (args !! i) as [a|]; [|done].
  destruct (fs !! i) as [[b|e|]|]; try done.
  destruct (fn a st) as [r st']. simpl. apply length_insert.
Qed.

Lemma run_task_files i fs st :
  files (run_task fn args i fs st).2 = files st.
Proof.
  unfold run_task.
  destruct (args !! i) as [a|]; [|done].
  destruct (fs !! i) as [[b|e|]|]; try done.
  pose proof (fn_files a st) as Hf.
  destruct (fn a st) as [r st']. done.
Qed.

Lemma run_task_consistent i fs st :
  consistent g args fs → consistent g args (run_task fn args i fs st).1.
Proof.
  intros Hc. unfold consistent in *.
  apply Forall2_same_length_lookup. split.
  { rewrite run_task_length. by eapply Forall2_length. }
  intros j a r Ha Hr. rewrite run_task_lookup in Hr.
  assert (fs !! j = Some r → r = Blocked ∨ r = g a) as Hold.
  { intros Hj. by eapply (Forall2_lookup_lr _ _ _ _ _ _ Hc). }
  destruct (args !! i) as [a'|] eqn:Ha'; [|auto].
  destruct (fs !! i) as [[b|e|]|] eqn:Hf; auto.
  destruct (decide (i = j)) as [->|]; auto.
  right. congruence.
Qed.

(** A finished future keeps its value. *)
Lemma run_task_keeps i j a fs st :
  args !! j = Some a → fs !! j = Some (g a) →
  (run_task fn args i fs st).1 !! j = Some (g a).
Proof.
  intros Ha Hj. rewrite run_task_lookup.
  destruct (args !! i) as [a'|] eqn:Ha'; [|done].
  destruct (fs !! i) as [[b|e|]|] eqn:Hf; try done.
  destruct (decide (i = j)) as [->|]; [congruence|done].
Qed.

(** After its task has run, a future holds the outcome of the task. *)
Lemma run_task_self i a fs st :
  consistent g args fs → args !! i = Some a →
  (run_task fn args i fs st).1 !! i = Some (g a).
Proof.
  intros Hc Ha. rewrite run_task_lookup, Ha.
  destruct (Forall2_lookup_l _ _ _ _ _ Hc Ha) as (r & Hr & Hor).
  rewrite Hr. destruct Hor as [->| ->].
  - by rewrite decide_True.
  - destruct (g a); [done..|by rewrite decide_True].
Qed.

Lemma run_schedule_consistent sched fs st :
  consistent g args fs → consistent g args (run_schedule fn args sched fs st).1.
Proof.
  revert fs st. induction sched as [|i sched IH]; intros fs st Hc; [done|].
  simpl. pose proof (run_task_consistent i fs st Hc) as Hc'.
  destruct (run_task fn args i fs st) as [fs' st']. by apply IH.
Qed.

Lemma run_schedule_files sched fs st :
  files (run_schedule fn args sched fs st).2 = files st.
Proof.
  revert fs st. induction sched as [|i sched IH]; intros fs st; [done|].
  simpl. pose proof (run_task_files i fs st) as Hf.
  destruct (run_task fn args i fs st) as [fs' st']. simpl in Hf.
  by rewrite IH.
Qed.

Lemma run_schedule_done sched j a fs st :
  consistent g args fs → args !! j = Some a →
  j ∈ sched ∨ fs !! j = Some (g a) →
  (run_schedule fn args sched fs st).1 !! j = Some (g a).
Proof.
  revert fs st. induction sched as [|i sched IH]; intros fs st Hc Ha Hj.
  { destruct Hj as [Hj|Hj]; [by apply elem_of_nil in Hj|done]. }
  simpl.
  pose proof (run_task_consistent i fs st Hc) as Hc'.
  pose proof (run_task_keeps i j a fs st Ha) as Hkeep.
  pose proof (run_task_self i a fs st Hc) as Hself.
  destruct (run_task fn args i fs st) as [fs' st']. simpl in *.
  apply IH; [done..|].
  destruct Hj as [Hj|Hj]; [|auto].
  apply elem_of_cons in Hj as [->|Hj]; auto.
Qed.

(** When every task has run, the futures are the outcomes of the tasks
    in the order of the arguments, whatever the order of the schedule. *)
Lemma run_schedule_complete sched st :
  complete (length args) sched →
  (run_schedule fn args sched (replicate (length args) Blocked) st).1
  = g <$> args.
Proof.
  intros Hall. apply list_eq_same_length with (length args).
  - by rewrite length_fmap.
  - rewrite (consistent_length _
               (run_schedule_consistent sched _ st consistent_init)).
    done.
  - intros j x y Hj Hx Hy.
    destruct (lookup_lt_is_Some_2 args j Hj) as [a Ha].
    rewrite (run_schedule_done sched j a _ st consistent_init Ha) in Hx
      by (left; auto).
    rewrite list_lookup_fmap, Ha in Hy. simpl in Hy. congruence.
Qed.

(** What the iterator returns was produced by the tasks, position by
    position. *)
Lemma result_iterator_consistent fs bs :
  consistent g args fs → result_iterator fs = Returned bs →
  Forall2 (λ a b, g a = Returned b) args bs.
Proof.
  unfold consistent. intros Hc. revert bs.
  induction Hc as [|a r l fs' Hr Hc IH]; intros bs Hit; simpl in Hit.
  { injection Hit as <-. constructor. }
  destruct r as [b|e|]; try discriminate.
  destruct (result_iterator fs') as [bs'|e|] eqn:Hit'; try discriminate.
  injection Hit as <-. constructor; [|by apply IH].
  destruct Hr as [Hr|Hr]; [discriminate|done].
Qed.
End executor_facts.

(** ** What one call of [extract_bytes] does *)

Section extract_bytes_facts.
Variable W : World.

Lemma add_requests_nil st : add_requests [] st = st.
Proof. destruct st. unfold add_requests. simpl. by rewrite app_nil_r. Qed.

Lemma fetch_run url o c st :
  fetch W url o c st = (fetched W url o c, add_requests (calls W url o c) st).
Proof.
  unfold fetched, calls, fetch.
  destruct c as [ak sk tok| |]; unfold mbind, send, lift, mret; simpl.
  - by destruct (s3_get_object W ak sk tok _ _ _).
  - by destruct (http_get W url _).
  - by rewrite add_requests_nil.
Qed.

Lemma decoded_fetched url o c :
  decoded W url o c =
    match fetched W url o c with
    | Returned (Some raw) =>
        match decode W raw with
        | inr plain => Returned plain
        | inl e => Raised e
        end
    | Returned None => Raised (UnboundLocalError "body")
    | Raised e => Raised e
    | Blocked => Blocked
    end.
Proof.
  unfold decoded, extract_bytes, mbind. rewrite fetch_run. simpl.
  destruct (fetched W url o c) as [[raw|]|e|]; try done.
  simpl. unfold lift. by destruct (decode W raw).
Qed.

Lemma extract_bytes_run url o c st :
  extract_bytes W url o c st
  = (decoded W url o c, add_requests (calls W url o c) st).
Proof.
  rewrite decoded_fetched.
  unfold extract_bytes, mbind. rewrite fetch_run.
  destruct (fetched W url o c) as [[raw|]|e|]; try done.
  simpl. unfold lift. by destruct (decode W raw).
Qed.

Lemma extract_bytes_outcome url o c st :
  (extract_bytes W url o c st).1 = decoded W url o c.
Proof. by rewrite extract_bytes_run. Qed.

Lemma extract_bytes_files url o c st :
  files (extract_bytes W url o c st).2 = files st.
Proof. by rewrite extract_bytes_run. Qed.

Lemma fragment_bytes_decoded url c m buf :
  fragment_bytes W url c m buf → decoded W url (offset m) c = Returned buf.
Proof.
  intros (raw & Hf & Hd). rewrite decoded_fetched, Hf, Hd. done.
Qed.
End extract_bytes_facts.

(** ** What [extract_metadata] does *)

Section result_iterator_facts.
Context {B : Type}.

Lemma result_iterator_returned (fs : list (outcome B)) (bs : list B) :
  Forall2 (λ r b, r = Returned b) fs bs → result_iterator fs = Returned bs.
Proof.
  induction 1 as [|r b fs bs -> _ IH]; [done|]. simpl. by rewrite IH.
Qed.

(** Where every future has finished and one of them holds an exception,
    the iterator raises. *)
Lemma result_iterator_raised (fs : list (outcome B)) (e : exn) :
  Forall (λ r, r ≠ Blocked) fs → Raised e ∈ fs →
  ∃ e', result_iterator fs = Raised e'.
Proof.
  induction 1 as [|r fs Hr _ IH]; intros Hin.
  { by apply elem_of_nil in Hin. }
  simpl. destruct r as [b|e1|]; [|by eexists|done].
  apply elem_of_cons in Hin as [?|Hin]; [done|].
  destruct (IH Hin) as [e' ->]. by eexists.
Qed.
End result_iterator_facts.

Lemma permutation_complete (n : nat) (sched : list nat) :
  sched ≡ₚ seq 0 n → complete n sched.
Proof.
  intros Hp i Hi. rewrite Hp. apply elem_of_seq. lia.
Qed.

Lemma mbind_run {A B} (m : M A) (k : A → M B) (st : State) :
  mbind m k st =
    match (m st).1 with
    | Returned a => k a (m st).2
    | Raised e => (Raised e, (m st).2)
    | Blocked => (Blocked, (m st).2)
    end.
Proof. unfold mbind. by destruct (m st) as [[a|e|] st']. Qed.

(** *** Writing the output file *)

Lemma write_file_ok (W : World) path data st :
  open_wb W path = ok tt →
  file_write W path data = inr tt →
  write_file W path data st
  = (Returned tt,
     {| requests := requests st; files := <[path := data]> (files st) |}).
Proof. intros Hopen Hwrite. unfold write_file. by rewrite Hopen, Hwrite. Qed.

Lemma write_file_open_fails (W : World) path data st e :
  open_wb W path = raise e → write_file W path data st = (Raised e, st).
Proof. intros Hopen. unfold write_file. by rewrite Hopen. Qed.

Lemma write_file_requests (W : World) path data st :
  requests (write_file W path data st).2 = requests st.
Proof.
  unfold write_file. destruct (open_wb W path); [done|].
  by destruct (file_write W path data) as [[e n]|].
Qed.

(** What the write returns and the files it leaves depend on the files
    alone, not on the requests sent before. *)
Lemma write_file_same_files (W : World) path data st1 st2 :
  files st1 = files st2 →
  (write_file W path data st1).1 = (write_file W path data st2).1
  ∧ files (write_file W path data st1).2
    = files (write_file W path data st2).2.
Proof.
  intros Hf. unfold write_file. destruct (open_wb W path); [done|].
  destruct (file_write W path data) as [[e n]|]; simpl; by rewrite Hf.
Qed.

Lemma write_file_other (W : World) path data st p :
  p ≠ path → files (write_file W path data st).2 !! p = files st !! p.
Proof.
  intros Hp. unfold write_file. destruct (open_wb W path); [done|].
  destruct (file_write W path data) as [[e n]|]; simpl;
    by rewrite lookup_insert_ne.
Qed.

Section extract_metadata_facts.
Variable W : World.

Lemma preamble_ok slc_name path strategy url ms c :
  get_download_url W slc_name = ok url →
  json_to_metadata_entries W path = ok ms →
  make_client W strategy = ok (Some c) →
  preamble W slc_name path strategy = ok (url, ms, c).
Proof. unfold preamble. by intros -> -> ->. Qed.

(** [extract_metadata] either stops in its preamble, with the state as
    it was, or goes on to the pool and the output file. *)
Lemma extract_metadata_preamble slc_name path strategy sched st :
  extract_metadata W slc_name path strategy sched st =
    match preamble W slc_name path strategy with
    | inl e => (Raised e, st)
    | inr (url, ms, c) =>
        mbind (executor_map (λ o, extract_bytes W url o c)
                 (offset <$> ms) sched)
          (λ results, write_file W (slc_name +:+ ".xml") (concat results))
          st
    end.
Proof.
  unfold extract_metadata, preamble, tqdm, mbind, lift, rbind.
  destruct (get_download_url W slc_name) as [e|url]; [done|].
  destruct (json_to_metadata_entries W path) as [e|ms]; [done|].
  destruct (make_client W strategy) as [e|[c|]]; done.
Qed.

Section pool.
Variables (url : string) (c : client) (ms : list XmlMetadata).
Variables (sched : list nat) (st : State).

Lemma pool_files :
  files (executor_map (λ o, extract_bytes W url o c) (offset <$> ms) sched st).2
  = files st.
Proof.
  unfold executor_map.
  pose proof (run_schedule_files (λ o, extract_bytes W url o c)
    (offset <$> ms) (λ o st', extract_bytes_files W url o c st') sched
    (replicate (length (offset <$> ms)) Blocked) st) as Hf.
  by destruct (run_schedule _ _ _ _ _).
Qed.

Lemma pool_returned bufs :
  (executor_map (λ o, extract_bytes W url o c) (offset <$> ms) sched st).1
    = Returned bufs →
  Forall2 (λ m b, decoded W url (offset m) c = Returned b) ms bufs.
Proof.
  unfold executor_map. intros Hr.
  pose proof (run_schedule_consistent (λ o, extract_bytes W url o c)
    (offset <$> ms) (λ o, decoded W url o c)
    (λ o st', extract_bytes_outcome W url o c st') sched _ st
    (consistent_init _ _)) as Hc.
  destruct (run_schedule _ _ _ _ _) as [fs st']. simpl in *.
  apply result_iterator_consistent with (bs := bufs) in Hc; [|done].
  by apply Forall2_fmap_l in Hc.
Qed.

Lemma pool_complete :
  complete (length ms) sched →
  (executor_map (λ o, extract_bytes W url o c) (offset <$> ms) sched st).1
  = result_iterator ((λ m, decoded W url (offset m) c) <$> ms).
Proof.
  unfold executor_map. intros Hall.
  pose proof (run_schedule_complete (λ o, extract_bytes W url o c)
    (offset <$> ms) (λ o, decoded W url o c)
    (λ o st', extract_bytes_outcome W url o c st') sched st) as Hc.
  rewrite length_fmap in Hc. specialize (Hc Hall).
  rewrite length_fmap.
  destruct (run_schedule _ _ _ _ _) as [fs st']. simpl in *.
  rewrite Hc. by rewrite <- list_fmap_compose.
Qed.
End pool.

Lemma fetched_not_blocked url o c : fetched W url o c ≠ Blocked.
Proof.
  unfold fetched, fetch.
  destruct c as [ak sk tok| |]; unfold mbind, send, lift, mret; simpl.
  - by destruct (s3_get_object W ak sk tok _ _ _).
  - by destruct (http_get W url _).
  - done.
Qed.

Lemma decoded_not_blocked url o c : decoded W url o c ≠ Blocked.
Proof.
  rewrite decoded_fetched.
  pose proof (fetched_not_blocked url o c) as Hf.
  destruct (fetched W url o c) as [[raw|]|e|]; try done.
  by destruct (decode W raw).
Qed.
End extract_metadata_facts.

(** *** Building the fragment set *)

Lemma dict_get_Some_elem d k v : dict_get d k = Some v → k ∈ d.*1.
Proof.
  induction d as [|[k' v'] d IH]; simpl; [done|].
  destruct (decide (k' = k)) as [->|]; intros H.
  - apply list_elem_of_here.
  - apply list_elem_of_further. auto.
Qed.

Lemma metadata_loop_raise d slc_name keys key acc e :
  key ∈ keys → entry_offset d key = raise e →
  ∃ e', metadata_loop d slc_name keys acc = raise e'.
Proof.
  intros Hin He. revert acc.
  induction keys as [|k keys IH]; intros acc.
  { by apply elem_of_nil in Hin. }
  simpl. destruct (entry_offset d k) as [e1|o] eqn:Hk; simpl.
  { by eexists. }
  apply elem_of_cons in Hin as [->|Hin]; [|auto].
  rewrite He in Hk. discriminate.
Qed.

Lemma metadata_loop_ok d slc_name keys acc ms :
  metadata_loop d slc_name keys acc = ok ms →
  name <$> ms = (name <$> acc) ++ keys
  ∧ (Forall (λ m, slc m = slc_name) acc → Forall (λ m, slc m = slc_name) ms).
Proof.
  revert acc. induction keys as [|k keys IH]; intros acc; simpl.
  { intros [= <-]. by rewrite app_nil_r. }
  destruct (entry_offset d k) as [e1|o]; simpl; [done|].
  intros Hloop. apply IH in Hloop as [Hnames Hslc]. split.
  - rewrite Hnames, fmap_app. simpl. by rewrite <- app_assoc.
  - intros Hacc. apply Hslc, Forall_app. split; [done|].
    by repeat constructor.
Qed.

Section table_facts.
Variable W : World.

(** The entries are built from the first pair of the top-level mapping
    and from nothing else. *)
Lemma json_to_metadata_entries_first path k v rest :
  json_load W path = ok (JDict ((k, v) :: rest)) →
  json_to_metadata_entries W path
  = rbind (py_iter v) (λ keys, metadata_loop v k keys []).
Proof.
  intros Hload. unfold json_to_metadata_entries. rewrite Hload. simpl.
  by rewrite decide_True.
Qed.

Lemma malformed_raises path v :
  json_load W path = ok v → malformed v →
  ∃ e, json_to_metadata_entries W path = raise e.
Proof.
  intros Hload Hbad. destruct Hbad as
    [v Hv| |slc_name v rest Hv|slc_name inner rest key entry Hget Hlack].
  - unfold json_to_metadata_entries. rewrite Hload. simpl.
    destruct v; try (by eexists). by destruct (Hv d).
  - unfold json_to_metadata_entries. rewrite Hload. by eexists.
  - rewrite (json_to_metadata_entries_first _ _ _ _ Hload), Hv.
    by eexists.
  - rewrite (json_to_metadata_entries_first _ _ _ _ Hload). simpl.
    assert (∃ e, entry_offset (JDict inner) (JStr key) = raise e)
      as [e He].
    { unfold entry_offset. simpl. rewrite Hget. simpl.
      destruct Hlack as [[e ->]|[e He]]; [by eexists|].
      destruct (py_getitem entry (JStr "offset_start")); simpl;
        [by eexists|].
      rewrite He. by eexists. }
    apply metadata_loop_raise with (key := JStr key) (e := e); [|done].
    apply list_elem_of_fmap. exists key. split; [done|].
    by eapply dict_get_Some_elem.
Qed.

(** A failure in the preamble leaves the state as it was: no request
    has been sent and no file written. *)
Lemma extract_metadata_table_raises slc_name path strategy sched st e :
  json_to_metadata_entries W path = raise e →
  ∃ e', extract_metadata W slc_name path strategy sched st
        = (Raised e', st).
Proof.
  intros He. rewrite extract_metadata_preamble. unfold preamble.
  destruct (get_download_url W slc_name); simpl; [by eexists|].
  rewrite He. by eexists.
Qed.
End table_facts.

(** *** A pool without tasks *)

Lemma run_schedule_no_task {A B} (fn : A → M B) sched st :
  run_schedule fn [] sched [] st = ([], st).
Proof. induction sched as [|i sched IH]; [done|]. simpl. exact IH. Qed.

Lemma fetched_unbound (W : World) url o c :
  fetched W url o c = Returned None ↔ c = OtherObject.
Proof.
  unfold fetched, fetch. split.
  - destruct c as [ak sk tok| |]; unfold mbind, send, lift, mret; simpl.
    + by destruct (s3_get_object W ak sk tok _ _ _).
    + by destruct (http_get W url _).
    + done.
  - by intros ->.
Qed.

(** *** Reading back a printed range *)

Lemma digit_of_pretty_N_char (d : N) :
  (d < 10)%N → digit_of (pretty_N_char d) = Some d.
Proof.
  intros Hd.
  assert (d = 0 ∨ d = 1 ∨ d = 2 ∨ d = 3 ∨ d = 4 ∨ d = 5 ∨ d = 6 ∨ d = 7
          ∨ d = 8 ∨ d = 9)%N as Hcases by lia.
  repeat (destruct Hcases as [->|Hcases]; [reflexivity|]).
  by subst d.
Qed.

Lemma read_digits_cons c d s acc :
  digit_of c = Some d →
  read_digits (String c s) acc = read_digits s (acc * 10 + d)%N.
Proof. intros Hd. simpl. by rewrite Hd. Qed.

Lemma read_digits_pretty_N_go (x : N) :
  ∃ k : N, ∀ s acc,
    read_digits (pretty_N_go x s) acc = read_digits s (acc * 10 ^ k + x)%N.
Proof.
  induction (N.lt_wf_0 x) as [x _ IH].
  destruct (decide (x = 0%N)) as [->|Hx].
  { exists 0%N. intros s acc. rewrite pretty_N_go_0. f_equal. lia. }
  destruct (IH (x `div` 10)%N) as [k Hk].
  { apply N.div_lt; lia. }
  exists (N.succ k). intros s acc.
  rewrite pretty_N_go_step by lia. rewrite Hk.
  rewrite (read_digits_cons _ (x `mod` 10)%N)
    by (apply digit_of_pretty_N_char, N.mod_lt; lia).
  f_equal. rewrite N.pow_succ_r'.
  pose proof (N.div_mod x 10). lia.
Qed.

Lemma pretty_N_go_app (x : N) (s t : string) :
  pretty_N_go x s +:+ t = pretty_N_go x (s +:+ t).
Proof.
  revert s. induction (N.lt_wf_0 x) as [x _ IH]; intros s.
  destruct (decide (x = 0%N)) as [->|Hx].
  { by rewrite !pretty_N_go_0. }
  rewrite (pretty_N_go_step x s), (pretty_N_go_step x (s +:+ t)) by lia.
  rewrite IH by (apply N.div_lt; lia). done.
Qed.

Lemma pretty_N_go_head (x : N) (s : string) :
  (0 < x)%N →
  ∃ c s', pretty_N_go x s = String c s' ∧ is_Some (digit_of c).
Proof.
  revert s. induction (N.lt_wf_0 x) as [x _ IH]; intros s Hx.
  rewrite pretty_N_go_step by done.
  destruct (decide (x `div` 10 = 0)%N) as [->|Hq].
  - rewrite pretty_N_go_0. eexists _, _. split; [done|].
    rewrite digit_of_pretty_N_char by (apply N.mod_lt; lia). by eexists.
  - apply IH; [apply N.div_lt; lia|by apply N.neq_0_lt_0].
Qed.

Lemma read_number_pretty (n : N) (rest : string) :
  no_digit_ahead rest → read_number (pretty n +:+ rest) = Some (n, rest).
Proof.
  intros Hrest. unfold pretty, pretty_N.
  destruct (decide (n = 0%N)) as [->|Hn].
  { simpl. by rewrite Hrest. }
  rewrite pretty_N_go_app. change ("" +:+ rest) with rest.
  destruct (pretty_N_go_head n rest) as (c & s' & Heq & [d Hd]); [lia|].
  unfold read_number. rewrite Heq, Hd, <- Heq.
  destruct (read_digits_pretty_N_go n) as [k Hk].
  by rewrite Hk, Hrest.
Qed.

Lemma strip_prefix_app (p s : string) : strip_prefix p (p +:+ s) = Some s.
Proof.
  induction p as [|c p IH]; simpl; [done|]. by rewrite Ascii.eqb_refl.
Qed.

Lemma string_app_empty_r (s : string) : s +:+ "" = s.
Proof.
  induction s as [|c s IH]; [done|].
  change (String c (s +:+ "") = String c s). by f_equal.
Qed.

Lemma pretty_Z_nonneg (z : Z) : 0 ≤ z → pretty z = pretty (Z.to_N z).
Proof. intros Hz. by destruct z. Qed.

Lemma read_byte_range_inclusive (first last : Z) :
  0 ≤ first → 0 ≤ last →
  read_byte_range ("bytes=" +:+ pretty first +:+ "-" +:+ pretty last)
  = Some (first, last).
Proof.
  intros Hf Hl. unfold read_byte_range.
  rewrite strip_prefix_app, (pretty_Z_nonneg first Hf),
    (pretty_Z_nonneg last Hl).
  rewrite read_number_pretty by (intros acc; reflexivity).
  rewrite strip_prefix_app.
  rewrite <- (string_app_empty_r (pretty (Z.to_N last))).
  rewrite read_number_pretty by (intros acc; reflexivity).
  by rewrite !Z2N.id.
Qed.

(** The HTTP branch does not look at the status of an answer: whatever it
    is, the body of the answer is what gets decoded. *)
Lemma extract_bytes_http_any_status (W : World) (url : string) (o : Offset)
    (st : State) (resp : Response) :
  http_get W url (range_header o) = ok resp →
  (extract_bytes W url o Session st).1
  = match decode W (content resp) with
    | inr plain => Returned plain
    | inl e => Raised e
    end.
Proof.
  intros Hresp. rewrite extract_bytes_outcome, decoded_fetched.
  unfold fetched, fetch, mbind, send, lift, mret. simpl. by rewrite Hresp.
Qed.

(** ** The claims *)

(** C1. For every fragment set built from the offset table, whatever the
    order in which the concurrent fetches complete (any permutation of the
    positions), the executor's [map] returns the decoded buffers in the
    order of the fragment descriptors; and when the output file can be
    opened and written, the call returns and the bytes written to
    [<slc_name>.xml] are the concatenation of [decode(fetch(range_i))] in
    that order. *)
Theorem C1_output_in_input_order (W : World)
    (slc_name path strategy : string) (sched : list nat) (st : State)
    (url : string) (ms : list XmlMetadata) (c : client) (bufs : list bytes) :
  get_download_url W slc_name = ok url →
  json_to_metadata_entries W path = ok ms →
  make_client W strategy = ok (Some c) →
  Forall2 (fragment_bytes W url c) ms bufs →
  sched ≡ₚ seq 0 (length ms) →
  (executor_map (λ o, extract_bytes W url o c) (offset <$> ms) sched st).1
    = Returned bufs
  ∧ (open_wb W (slc_name +:+ ".xml") = ok tt →
     file_write W (slc_name +:+ ".xml") (concat bufs) = inr tt →
     (extract_metadata W slc_name path strategy sched st).1 = Returned tt
     ∧ files (extract_metadata W slc_name path strategy sched st).2
       = <[slc_name +:+ ".xml" := concat bufs]> (files st)).
Proof.
  intros Hurl Hms Hc Hfrag Hperm.
  assert ((executor_map (λ o, extract_bytes W url o c) (offset <$> ms)
             sched st).1 = Returned bufs) as Hpool.
  { rewrite pool_complete by by apply permutation_complete.
    apply result_iterator_returned, Forall2_fmap_l.
    eapply Forall2_impl; [exact Hfrag|].
    intros m b Hb. by apply fragment_bytes_decoded. }
  split; [done|]. intros Hopen Hwrite.
  rewrite extract_metadata_preamble,
    (preamble_ok W _ _ _ _ _ _ Hurl Hms Hc).
  unfold ok. cbv beta iota.
  rewrite mbind_run, Hpool, (write_file_ok W _ _ _ Hopen Hwrite). simpl.
  by rewrite (pool_files W url c ms sched st).
Qed.

Lemma C1_output_in_input_order_witness :
  let run := extract_metadata Sample.world "ARCHIVE1" "metadata.json" "http"
               [1%nat; 0%nat] idle in
  run.1 = Returned tt
  ∧ files run.2 = <["ARCHIVE1.xml" := Sample.plain_A ++ Sample.plain_B]> ∅.
Proof.
  destruct (C1_output_in_input_order Sample.world "ARCHIVE1" "metadata.json"
    "http" [1%nat; 0%nat] idle "https://example.org/SLC/ARCHIVE1.zip"
    [ {| name := JStr "a"; slc := "ARCHIVE1";
         offset := {| start := 0; stop := 6 |} |};
      {| name := JStr "b"; slc := "ARCHIVE1";
         offset := {| start := 6; stop := 12 |} |} ]
    Session [Sample.plain_A; Sample.plain_B]) as (_ & Hwritten).
  - reflexivity.
  - reflexivity.
  - reflexivity.
  - repeat constructor.
    + exists Sample.stream_A. split; reflexivity.
    + exists Sample.stream_B. split; reflexivity.
  - apply perm_swap.
  - apply Hwritten; reflexivity.
Defined.

(** C2. If the fetch or the decoding of any one fragment raises, the whole
    operation fails: no file is created or changed, the results of the
    other fragments are dropped, and the call does not return normally.
    When every task gets to finish, the call raises. The output file is
    written only when every fragment has been fetched and decoded. *)
Theorem C2_no_partial_output (W : World)
    (slc_name path strategy : string) (sched : list nat) (st : State)
    (url : string) (ms : list XmlMetadata) (c : client)
    (m : XmlMetadata) (e : exn) :
  get_download_url W slc_name = ok url →
  json_to_metadata_entries W path = ok ms →
  make_client W strategy = ok (Some c) →
  m ∈ ms →
  decoded W url (offset m) c = Raised e →
  let run := extract_metadata W slc_name path strategy sched st in
  files run.2 = files st
  ∧ run.1 ≠ Returned tt
  ∧ (complete (length ms) sched → ∃ e', run.1 = Raised e').
Proof.
  intros Hurl Hms Hc Hm He run. subst run.
  rewrite extract_metadata_preamble,
    (preamble_ok W _ _ _ _ _ _ Hurl Hms Hc).
  pose proof (pool_files W url c ms sched st) as Hfiles.
  pose proof (pool_returned W url c ms sched st) as Hret.
  pose proof (pool_complete W url c ms sched st) as Hall.
  unfold ok. cbv beta iota. rewrite mbind_run.
  destruct (executor_map _ _ _ _).1 as [bufs|e1|]; simpl in *.
  - exfalso. specialize (Hret bufs eq_refl).
    apply list_elem_of_lookup in Hm as [i Hi].
    destruct (Forall2_lookup_l _ _ _ _ _ Hret Hi) as (b & _ & Hb).
    congruence.
  - split; [done|]. split; [done|]. by eexists.
  - split; [done|]. split; [done|]. intros Hcomplete.
    specialize (Hall Hcomplete).
    destruct (result_iterator_raised
                ((λ m, decoded W url (offset m) c) <$> ms) e) as [e' He'].
    + apply Forall_fmap, Forall_forall. intros x _.
      apply decoded_not_blocked.
    + apply list_elem_of_fmap. by exists m.
    + congruence.
Qed.

Lemma C2_no_partial_output_witness :
  let run := extract_metadata Sample.world "ARCHIVE1" "unreachable.json"
               "http" [2%nat; 1%nat; 0%nat] idle in
  files run.2 = ∅
  ∧ run.1 ≠ Returned tt
  ∧ (complete 3 [2%nat; 1%nat; 0%nat] → ∃ e', run.1 = Raised e').
Proof.
  apply (C2_no_partial_output Sample.world "ARCHIVE1" "unreachable.json"
    "http" [2%nat; 1%nat; 0%nat] idle "https://example.org/SLC/ARCHIVE1.zip"
    [ {| name := JStr "a"; slc := "ARCHIVE1";
         offset := {| start := 0; stop := 6 |} |};
      {| name := JStr "x"; slc := "ARCHIVE1";
         offset := {| start := 100; stop := 110 |} |};
      {| name := JStr "b"; slc := "ARCHIVE1";
         offset := {| start := 6; stop := 12 |} |} ]
    Session
    {| name := JStr "x"; slc := "ARCHIVE1";
       offset := {| start := 100; stop := 110 |} |}
    (LibraryError Requests "ConnectionError")).
  - reflexivity.
  - reflexivity.
  - reflexivity.
  - apply list_elem_of_further, list_elem_of_here.
  - reflexivity.
Defined.

(** C3. An entry of the offset table with [offset_stop <= offset_start]
    makes the construction of its [Offset] fail, so
    [json_to_metadata_entries] fails and [extract_metadata] stops with the
    state as it was: the range is never passed to the transport. *)
Theorem C3_invalid_range_rejected (W : World) (path : string)
    (archive : string) (inner rest : list (string * json))
    (key : string) (entry : json) (a b : Z)
    (slc_name strategy : string) (sched : list nat) (st : State) :
  json_load W path = ok (JDict ((archive, JDict inner) :: rest)) →
  dict_get inner key = Some entry →
  py_getitem entry (JStr "offset_start") = ok (JInt a) →
  py_getitem entry (JStr "offset_stop") = ok (JInt b) →
  b ≤ a →
  utils_Offset (JInt a) (JInt b) = raise OffsetConstructionError
  ∧ entry_offset (JDict inner) (JStr key) = raise OffsetConstructionError
  ∧ (∃ e, json_to_metadata_entries W path = raise e)
  ∧ (∃ e, extract_metadata W slc_name path strategy sched st
          = (Raised e, st)).
Proof.
  intros Hload Hget Ha Hb Hle.
  assert (utils_Offset (JInt a) (JInt b) = raise OffsetConstructionError)
    as Hoff by (unfold utils_Offset; by rewrite decide_True).
  assert (entry_offset (JDict inner) (JStr key)
          = raise OffsetConstructionError) as Hentry.
  { unfold entry_offset. simpl. rewrite Hget. simpl.
    rewrite Ha. simpl. rewrite Hb. simpl. exact Hoff. }
  assert (∃ e, json_to_metadata_entries W path = raise e) as [e He].
  { rewrite (json_to_metadata_entries_first W _ _ _ _ Hload). simpl.
    apply metadata_loop_raise
      with (key := JStr key) (e := OffsetConstructionError); [|done].
    apply list_elem_of_fmap. exists key. split; [done|].
    by eapply dict_get_Some_elem. }
  split; [done|]. split; [done|]. split; [by eexists|].
  by eapply extract_metadata_table_raises.
Qed.

Lemma C3_invalid_range_rejected_witness :
  utils_Offset (JInt 12) (JInt 6) = raise OffsetConstructionError
  ∧ entry_offset
      (JDict [("a", Sample.entry 0 6); ("b", Sample.entry 12 6)]) (JStr "b")
    = raise OffsetConstructionError
  ∧ (∃ e, json_to_metadata_entries Sample.world "inverted.json" = raise e)
  ∧ (∃ e, extract_metadata Sample.world "ARCHIVE1" "inverted.json" "http"
            [0%nat; 1%nat] idle = (Raised e, idle)).
Proof.
  apply (C3_invalid_range_rejected Sample.world "inverted.json" "ARCHIVE1"
    [("a", Sample.entry 0 6); ("b", Sample.entry 12 6)] [] "b"
    (Sample.entry 12 6) 12 6 "ARCHIVE1" "http" [0%nat; 1%nat] idle).
  - reflexivity.
  - reflexivity.
  - reflexivity.
  - reflexivity.
  - lia.
Defined.

(** C4. For an offset with [start >= 0] and [stop > start], [extract_bytes]
    makes one call to the transport, whose range is the header
    [bytes=<start>-<stop - 1>]; read as a byte range of the protocol, both
    ends included, it names first [start] and last [stop - 1], which are
    the positions of the half-open interval [start, stop). *)
Theorem C4_inclusive_wire_range (W : World) (url : string) (o : Offset)
    (st : State) :
  0 ≤ start o → start o < stop o →
  (∀ ak sk tok,
     requests (extract_bytes W url o (BaseClient ak sk tok) st).2
     = requests st
       ++ [S3GetObject (BUCKET W) (Path_name url) (range_header o)])
  ∧ requests (extract_bytes W url o Session st).2
    = requests st ++ [HttpGet url (range_header o)]
  ∧ read_byte_range (range_header o) = Some (start o, stop o - 1)
  ∧ (∀ p, start o ≤ p ≤ stop o - 1 ↔ start o ≤ p < stop o).
Proof.
  intros Hstart Hstop. split; [|split; [|split]].
  - intros ak sk tok. rewrite extract_bytes_run. unfold calls, fetch.
    unfold mbind, send, lift, mret. simpl.
    by destruct (s3_get_object W ak sk tok _ _ _).
  - rewrite extract_bytes_run. unfold calls, fetch.
    unfold mbind, send, lift, mret. simpl.
    by destruct (http_get W url _).
  - unfold range_header. apply read_byte_range_inclusive; lia.
  - intros p. lia.
Qed.

Lemma C4_inclusive_wire_range_witness :
  requests (extract_bytes Sample.world "https://example.org/SLC/ARCHIVE1.zip"
              {| start := 6; stop := 12 |} Session idle).2
    = [HttpGet "https://example.org/SLC/ARCHIVE1.zip" "bytes=6-11"]
  ∧ read_byte_range "bytes=6-11" = Some (6, 11).
Proof.
  destruct (C4_inclusive_wire_range Sample.world
    "https://example.org/SLC/ARCHIVE1.zip" {| start := 6; stop := 12 |} idle)
    as (_ & Hhttp & Hread & _).
  - simpl. lia.
  - simpl. lia.
  - split; [exact Hhttp|exact Hread].
Defined.

(** C5, as stated, fails for the HTTP variant: the answer has status 403
    and yet the call returns, with the body of the answer inflated. *)
Lemma C5_counterexample :
  http_get Sample.world "https://example.org/SLC/DENIED.zip" "bytes=0-5"
    = ok {| status_code := 403; content := Sample.stream_A |}
  ∧ extract_bytes Sample.world "https://example.org/SLC/DENIED.zip"
      {| start := 0; stop := 6 |} Session idle
    = (Returned Sample.plain_A,
       {| requests :=
            [HttpGet "https://example.org/SLC/DENIED.zip" "bytes=0-5"];
          files := ∅ |}).
Proof. split; reflexivity. Qed.

(** C5, amended. For either transport variant, when the client raises
    (botocore for the object store, requests for HTTP), [extract_bytes]
    raises that same exception and no body is passed to the decoder. *)
Theorem C5_transport_exceptions_propagate (W : World) (url : string)
    (o : Offset) (st : State) :
  (∀ ak sk tok e,
     s3_get_object W ak sk tok (BUCKET W) (Path_name url) (range_header o)
       = raise e →
     fetched W url o (BaseClient ak sk tok) = Raised e
     ∧ (extract_bytes W url o (BaseClient ak sk tok) st).1 = Raised e)
  ∧ (∀ e,
       http_get W url (range_header o) = raise e →
       fetched W url o Session = Raised e
       ∧ (extract_bytes W url o Session st).1 = Raised e).
Proof.
  split.
  - intros ak sk tok e He.
    assert (fetched W url o (BaseClient ak sk tok) = Raised e) as Hf.
    { unfold fetched, fetch, mbind, send, lift, mret. simpl.
      by rewrite He. }
    split; [done|].
    by rewrite extract_bytes_outcome, decoded_fetched, Hf.
  - intros e He.
    assert (fetched W url o Session = Raised e) as Hf.
    { unfold fetched, fetch, mbind, send, lift, mret. simpl.
      by rewrite He. }
    split; [done|].
    by rewrite extract_bytes_outcome, decoded_fetched, Hf.
Qed.

Lemma C5_transport_exceptions_propagate_witness :
  (extract_bytes Sample.world "https://example.org/SLC/OTHER.zip"
     {| start := 0; stop := 6 |}
     (BaseClient (JStr "AK") (JStr "SK") (JStr "TOK")) idle).1
    = Raised (LibraryError Botocore "NoSuchKey")
  ∧ (extract_bytes Sample.world "https://example.org/SLC/ARCHIVE1.zip"
       {| start := 100; stop := 110 |} Session idle).1
    = Raised (LibraryError Requests "ConnectionError").
Proof.
  destruct (C5_transport_exceptions_propagate Sample.world
    "https://example.org/SLC/OTHER.zip" {| start := 0; stop := 6 |} idle)
    as (Hs3 & _).
  destruct (C5_transport_exceptions_propagate Sample.world
    "https://example.org/SLC/ARCHIVE1.zip" {| start := 100; stop := 110 |}
    idle) as (_ & Hhttp).
  split.
  - apply Hs3. reflexivity.
  - apply Hhttp. reflexivity.
Defined.

(** C6, as stated, fails: a table whose archive lists no fragments is
    accepted, the call returns and writes an empty file. *)
Lemma C6_counterexample :
  json_load Sample.world "empty.json" = ok (JDict [("ARCHIVE1", JDict [])])
  ∧ extract_metadata Sample.world "ARCHIVE1" "empty.json" "http" [] idle
    = (Returned tt,
       {| requests := []; files := <["ARCHIVE1.xml" := []]> ∅ |}).
Proof. split; reflexivity. Qed.

(** C6, amended. A description that cannot be loaded, whose top level is
    not a mapping or is an empty mapping, whose first archive is not
    iterable, or one of whose entries has no [offset_start] or no
    [offset_stop], makes [json_to_metadata_entries] raise, and
    [extract_metadata] stops with the state as it was, before any fetch. *)
Theorem C6_malformed_table_fails_before_fetch (W : World)
    (slc_name path strategy : string) (sched : list nat) (st : State) :
  match json_load W path with
  | inl _ => True
  | inr v => malformed v
  end →
  (∃ e, json_to_metadata_entries W path = raise e)
  ∧ (∃ e, extract_metadata W slc_name path strategy sched st
          = (Raised e, st)).
Proof.
  intros Hbad.
  assert (∃ e, json_to_metadata_entries W path = raise e) as [e He].
  { destruct (json_load W path) as [e|v] eqn:Hload.
    - unfold json_to_metadata_entries. rewrite Hload. by eexists.
    - by eapply malformed_raises. }
  split; [by eexists|]. by eapply extract_metadata_table_raises.
Qed.

Lemma C6_malformed_table_fails_before_fetch_witness :
  (∃ e, json_to_metadata_entries Sample.world "no_stop.json" = raise e)
  ∧ (∃ e, extract_metadata Sample.world "ARCHIVE1" "no_stop.json" "http"
            [0%nat] idle = (Raised e, idle)).
Proof.
  apply (C6_malformed_table_fails_before_fetch Sample.world "ARCHIVE1"
    "no_stop.json" "http" [0%nat] idle).
  simpl.
  apply (malformed_entry "ARCHIVE1"
    [("a", JDict [("offset_start", JInt 0)])] [] "a"
    (JDict [("offset_start", JInt 0)])).
  - reflexivity.
  - right. exists (KeyError (JStr "offset_stop")). reflexivity.
Defined.

(** C8. [json_to_metadata_entries] takes the first key of the top-level
    mapping as the archive identifier and builds the descriptors from the
    value under that key alone: two tables with the same first pair give
    the same result whatever else they list, every descriptor carries the
    first key, and the names are the keys of its value in their order. *)
Theorem C8_first_archive_only (W : World) (path1 path2 : string)
    (k : string) (v : json) (rest1 rest2 : list (string * json)) :
  json_load W path1 = ok (JDict ((k, v) :: rest1)) →
  json_load W path2 = ok (JDict ((k, v) :: rest2)) →
  json_to_metadata_entries W path1 = json_to_metadata_entries W path2
  ∧ json_to_metadata_entries W path1
    = rbind (py_iter v) (λ keys, metadata_loop v k keys [])
  ∧ ∀ ms, json_to_metadata_entries W path1 = ok ms →
          Forall (λ m, slc m = k) ms ∧ py_iter v = ok (name <$> ms).
Proof.
  intros H1 H2.
  rewrite (json_to_metadata_entries_first W _ _ _ _ H1),
    (json_to_metadata_entries_first W _ _ _ _ H2).
  split; [done|]. split; [done|].
  intros ms. destruct (py_iter v) as [e|keys]; simpl; [done|].
  intros Hloop. apply metadata_loop_ok in Hloop as [Hnames Hslc].
  split; [by apply Hslc|]. by rewrite Hnames.
Qed.

Lemma C8_first_archive_only_witness :
  json_to_metadata_entries Sample.world "two_archives.json"
  = json_to_metadata_entries Sample.world "metadata.json"
  ∧ json_to_metadata_entries Sample.world "two_archives.json"
    = rbind (py_iter Sample.archive1)
        (λ keys, metadata_loop Sample.archive1 "ARCHIVE1" keys [])
  ∧ ∀ ms, json_to_metadata_entries Sample.world "two_archives.json" = ok ms →
          Forall (λ m, slc m = "ARCHIVE1") ms
          ∧ py_iter Sample.archive1 = ok (name <$> ms).
Proof.
  apply (C8_first_archive_only Sample.world "two_archives.json"
    "metadata.json" "ARCHIVE1" Sample.archive1
    [("ARCHIVE2", JDict [("c", Sample.entry 0 100)])] []).
  - reflexivity.
  - reflexivity.
Defined.

(** C9. With a client that is neither a botocore client nor a requests
    session no branch of [extract_bytes] assigns [body]: the call sends
    nothing and raises [UnboundLocalError], which is not an error of the
    transport; the two supported clients always bind [body] or raise. With
    a strategy other than ['s3'] and ['http'], [client] stays unbound and
    [extract_metadata] raises with the state as it was, before any fetch. *)
Theorem C9_unsupported_client_unbound (W : World) (url : string)
    (o : Offset) (slc_name path strategy : string) (sched : list nat)
    (st : State) :
  strategy ≠ "s3" → strategy ≠ "http" →
  extract_bytes W url o OtherObject st
    = (Raised (UnboundLocalError "body"), st)
  ∧ is_transport_error (UnboundLocalError "body") = false
  ∧ (∀ c, fetched W url o c = Returned None ↔ c = OtherObject)
  ∧ make_client W strategy = ok None
  ∧ (∃ e, extract_metadata W slc_name path strategy sched st
          = (Raised e, st))
  ∧ (∀ url' ms,
       get_download_url W slc_name = ok url' →
       json_to_metadata_entries W path = ok ms →
       extract_metadata W slc_name path strategy sched st
       = (Raised (UnboundLocalError "client"), st)).
Proof.
  intros Hs3 Hhttp.
  assert (make_client W strategy = ok None) as Hc.
  { unfold make_client. by rewrite !decide_False. }
  split.
  { rewrite extract_bytes_run.
    change (calls W url o OtherObject) with (@nil request).
    by rewrite add_requests_nil. }
  split; [done|]. split; [intros c; apply fetched_unbound|].
  split; [done|]. split.
  - rewrite extract_metadata_preamble. unfold preamble.
    destruct (get_download_url W slc_name); simpl; [by eexists|].
    destruct (json_to_metadata_entries W path); simpl; [by eexists|].
    rewrite Hc. by eexists.
  - intros url' ms Hurl Hms.
    rewrite extract_metadata_preamble. unfold preamble.
    by rewrite Hurl, Hms, Hc.
Qed.

Lemma C9_unsupported_client_unbound_witness :
  extract_bytes Sample.world "https://example.org/SLC/ARCHIVE1.zip"
    {| start := 0; stop := 6 |} OtherObject idle
    = (Raised (UnboundLocalError "body"), idle)
  ∧ extract_metadata Sample.world "ARCHIVE1" "metadata.json" "ftp"
      [0%nat; 1%nat] idle
    = (Raised (UnboundLocalError "client"), idle).
Proof.
  destruct (C9_unsupported_client_unbound Sample.world
    "https://example.org/SLC/ARCHIVE1.zip" {| start := 0; stop := 6 |}
    "ARCHIVE1" "metadata.json" "ftp" [0%nat; 1%nat] idle)
    as (Hbody & _ & _ & _ & _ & Hclient).
  - discriminate.
  - discriminate.
  - split; [exact Hbody|].
    eapply Hclient; reflexivity.
Defined.

(** C10. For an offset table whose first archive has an empty mapping,
    when the download url resolves, the strategy yields a client and the
    output file can be opened and written, [extract_metadata] returns
    normally: it sends no request and writes an empty file named
    [<slc_name>.xml]. *)
Theorem C10_empty_mapping_empty_file (W : World)
    (slc_name path strategy : string) (sched : list nat) (st : State)
    (archive : string) (rest : list (string * json))
    (url : string) (c : client) :
  json_load W path = ok (JDict ((archive, JDict []) :: rest)) →
  get_download_url W slc_name = ok url →
  make_client W strategy = ok (Some c) →
  open_wb W (slc_name +:+ ".xml") = ok tt →
  file_write W (slc_name +:+ ".xml") [] = inr tt →
  extract_metadata W slc_name path strategy sched st
  = (Returned tt,
     {| requests := requests st;
        files := <[slc_name +:+ ".xml" := []]> (files st) |}).
Proof.
  intros Hload Hurl Hc Hopen Hwrite.
  assert (json_to_metadata_entries W path = ok []) as Hms.
  { by rewrite (json_to_metadata_entries_first W _ _ _ _ Hload). }
  rewrite extract_metadata_preamble,
    (preamble_ok W _ _ _ _ _ _ Hurl Hms Hc).
  unfold ok. cbv beta iota.
  assert (executor_map (λ o, extract_bytes W url o c) (offset <$> [])
            sched st = (Returned [], st)) as Hpool.
  { unfold executor_map. simpl. by rewrite run_schedule_no_task. }
  rewrite mbind_run, Hpool.
  exact (write_file_ok W _ _ _ Hopen Hwrite).
Qed.

Lemma C10_empty_mapping_empty_file_witness :
  extract_metadata Sample.world "ARCHIVE1" "empty.json" "s3" [3%nat] idle
  = (Returned tt,
     {| requests := []; files := <["ARCHIVE1.xml" := []]> ∅ |}).
Proof.
  apply (C10_empty_mapping_empty_file Sample.world "ARCHIVE1" "empty.json"
    "s3" [3%nat] idle "ARCHIVE1" [] "https://example.org/SLC/ARCHIVE1.zip"
    (BaseClient (JStr "AK") (JStr "SK") (JStr "TOK"))).
  - reflexivity.
  - reflexivity.
  - reflexivity.
  - reflexivity.
  - reflexivity.
Defined.

(** ** Further properties of the module *)

(** *** The requests of a pool *)

Section sent_facts.
Context {A B : Type}.
Variable fn : A → M B.
Variable args : list A.
Variable g : A → outcome B.
Variable q : A → list request.
(** A task sends its requests, finishes, and touches nothing else. *)
Hypothesis fn_run : ∀ a st, fn a st = (g a, add_requests (q a) st).
Hypothesis g_finishes : ∀ a, g a ≠ Blocked.

Lemma sent_init (l : list A) : sent (B := B) q l (replicate (length l) Blocked) = [].
Proof. unfold sent. induction l as [|a l IH]; [done|]. simpl. exact IH. Qed.

Lemma sent_insert (l : list A) (fs : list (outcome B)) i a :
  l !! i = Some a → fs !! i = Some Blocked →
  sent q l (<[i := g a]> fs) ≡ₚ sent q l fs ++ q a.
Proof.
  unfold sent. revert fs i.
  induction l as [|a0 l IH]; intros fs i Ha Hf; [done|].
  destruct fs as [|r0 fs]; [done|]. destruct i as [|i]; simpl in *.
  - injection Ha as ->. injection Hf as ->.
    pose proof (g_finishes a) as Hg.
    destruct (g a); try done; simpl; apply Permutation_app_comm.
  - rewrite (IH fs i Ha Hf). by rewrite app_assoc.
Qed.

Lemma sent_elem (l : list A) (fs : list (outcome B)) x :
  x ∈ sent q l fs → ∃ a, a ∈ l ∧ x ∈ q a.
Proof.
  unfold sent. revert fs. induction l as [|a0 l IH]; intros fs Hx.
  { by apply elem_of_nil in Hx. }
  destruct fs as [|r0 fs]; [by apply elem_of_nil in Hx|]. simpl in Hx.
  apply elem_of_app in Hx as [Hx|Hx].
  - exists a0. split; [apply list_elem_of_here|].
    destruct r0; [done..|by apply elem_of_nil in Hx].
  - destruct (IH fs Hx) as (a & Ha & Hq).
    exists a. split; [by apply list_elem_of_further|done].
Qed.

Lemma sent_all_returned (l : list A) (fs : list (outcome B)) bs :
  length fs = length l → result_iterator fs = Returned bs →
  sent q l fs = concat (q <$> l).
Proof.
  unfold sent. revert fs bs. induction l as [|a0 l IH]; intros fs bs Hlen Hit.
  { by destruct fs. }
  destruct fs as [|r0 fs]; [done|]. simpl in *.
  destruct r0 as [b| |]; try done.
  destruct (result_iterator fs) as [bs'| |] eqn:Hfs; try done.
  f_equal. apply (IH fs bs'); [lia|done].
Qed.

Lemma run_task_sent i fs st base :
  requests st ≡ₚ base ++ sent q args fs →
  requests (run_task fn args i fs st).2
  ≡ₚ base ++ sent q args (run_task fn args i fs st).1.
Proof.
  intros Hinv. unfold run_task.
  destruct (args !! i) as [a|] eqn:Ha; [|done].
  destruct (fs !! i) as [[b|e|]|] eqn:Hf; try done.
  rewrite fn_run. simpl.
  rewrite (sent_insert args fs i a Ha Hf), Hinv. by rewrite app_assoc.
Qed.

Lemma run_schedule_sent sched fs st base :
  requests st ≡ₚ base ++ sent q args fs →
  requests (run_schedule fn args sched fs st).2
  ≡ₚ base ++ sent q args (run_schedule fn args sched fs st).1.
Proof.
  revert fs st. induction sched as [|i sched IH]; intros fs st Hinv; [done|].
  simpl. pose proof (run_task_sent i fs st base Hinv) as Hstep.
  destruct (run_task fn args i fs st) as [fs' st']. by apply IH.
Qed.

Lemma run_schedule_length sched fs st :
  length (run_schedule fn args sched fs st).1 = length fs.
Proof.
  revert fs st. induction sched as [|i sched IH]; intros fs st; [done|].
  simpl. pose proof (run_task_length fn args i fs st) as Hlen.
  destruct (run_task fn args i fs st) as [fs' st']. simpl in Hlen.
  by rewrite IH.
Qed.

(** The requests of a pool are requests of its tasks. *)
Lemma executor_map_requests sched st x :
  x ∈ requests (executor_map fn args sched st).2 →
  x ∈ requests st ∨ ∃ a, a ∈ args ∧ x ∈ q a.
Proof.
  unfold executor_map.
  pose proof (run_schedule_sent sched (replicate (length args) Blocked) st
                (requests st)) as Hsent.
  rewrite sent_init, app_nil_r in Hsent. specialize (Hsent (reflexivity _)).
  destruct (run_schedule _ _ _ _ _) as [fs st']. simpl in *.
  rewrite Hsent. intros Hx. apply elem_of_app in Hx as [Hx|Hx]; [by left|].
  right. by eapply sent_elem.
Qed.

(** A pool whose iterator returns has run every task once. *)
Lemma executor_map_returned_requests sched st bs :
  (executor_map fn args sched st).1 = Returned bs →
  requests (executor_map fn args sched st).2
  ≡ₚ requests st ++ concat (q <$> args).
Proof.
  unfold executor_map.
  pose proof (run_schedule_sent sched (replicate (length args) Blocked) st
                (requests st)) as Hsent.
  rewrite sent_init, app_nil_r in Hsent. specialize (Hsent (reflexivity _)).
  pose proof (run_schedule_length sched
                (replicate (length args) Blocked) st) as Hlen.
  rewrite length_replicate in Hlen.
  destruct (run_schedule _ _ _ _ _) as [fs st']. simpl in *.
  intros Hit. rewrite Hsent. by rewrite (sent_all_returned args fs bs).
Qed.
End sent_facts.

(** *** The requests of [extract_metadata] *)

Lemma calls_spec (W : World) url o c :
  calls W url o c =
    match c with
    | BaseClient _ _ _ =>
        [S3GetObject (BUCKET W) (Path_name url) (range_header o)]
    | Session => [HttpGet url (range_header o)]
    | OtherObject => []
    end.
Proof.
  unfold calls, fetch.
  destruct c as [ak sk tok| |]; unfold mbind, send, lift, mret; simpl.
  - by destruct (s3_get_object W ak sk tok _ _ _).
  - by destruct (http_get W url _).
  - done.
Qed.

Lemma make_client_cases (W : World) strategy c :
  make_client W strategy = ok (Some c) →
  (strategy = "s3" ∧ ∃ ak sk tok, c = BaseClient ak sk tok)
  ∨ (strategy = "http" ∧ c = Session).
Proof.
  unfold make_client.
  destruct (decide (strategy = "s3")) as [->|Hs3].
  - intros Hc. left. split; [done|].
    destruct (get_credentials W) as [e|creds]; simpl in Hc; [done|].
    destruct (py_getitem creds (JStr "accessKeyId")) as [e|ak];
      simpl in Hc; [done|].
    destruct (py_getitem creds (JStr "secretAccessKey")) as [e|sk];
      simpl in Hc; [done|].
    destruct (py_getitem creds (JStr "sessionToken")) as [e|tok];
      simpl in Hc; [done|].
    injection Hc as <-. by eexists _, _, _.
  - destruct (decide (strategy = "http")) as [->|Hhttp]; [|done].
    intros [= <-]. by right.
Qed.

Lemma preamble_inv (W : World) slc_name path strategy url ms c :
  preamble W slc_name path strategy = ok (url, ms, c) →
  get_download_url W slc_name = ok url
  ∧ json_to_metadata_entries W path = ok ms
  ∧ make_client W strategy = ok (Some c).
Proof.
  unfold preamble.
  destruct (get_download_url W slc_name) as [e|url']; simpl; [done|].
  destruct (json_to_metadata_entries W path) as [e|ms']; simpl; [done|].
  destruct (make_client W strategy) as [e|[c'|]]; simpl; try done.
  by intros [= -> -> ->].
Qed.

(** After its preamble [extract_metadata] runs the pool, and writes the
    output file when the pool returned. *)
Lemma extract_metadata_pool_state (W : World) slc_name path strategy sched st
    url ms c :
  preamble W slc_name path strategy = ok (url, ms, c) →
  let pool := executor_map (λ o, extract_bytes W url o c) (offset <$> ms)
                sched st in
  extract_metadata W slc_name path strategy sched st =
    match pool.1 with
    | Returned results =>
        write_file W (slc_name +:+ ".xml") (concat results) pool.2
    | Raised e => (Raised e, pool.2)
    | Blocked => (Blocked, pool.2)
    end.
Proof.
  intros Hpre. rewrite extract_metadata_preamble, Hpre.
  unfold ok. cbv beta iota zeta. by rewrite mbind_run.
Qed.

Lemma extract_metadata_requests (W : World) slc_name path strategy sched st
    x :
  x ∈ requests (extract_metadata W slc_name path strategy sched st).2 →
  x ∈ requests st
  ∨ ∃ url ms m,
      get_download_url W slc_name = ok url
      ∧ json_to_metadata_entries W path = ok ms
      ∧ m ∈ ms
      ∧ (strategy = "s3"
         ∧ x = S3GetObject (BUCKET W) (Path_name url)
                 (range_header (offset m))
         ∨ strategy = "http" ∧ x = HttpGet url (range_header (offset m))).
Proof.
  destruct (preamble W slc_name path strategy) as [e|[[url ms] c]] eqn:Hpre.
  { rewrite extract_metadata_preamble, Hpre. by left. }
  rewrite (extract_metadata_pool_state W _ _ _ _ _ _ _ _ Hpre).
  apply preamble_inv in Hpre as (Hurl & Hms & Hc).
  intros Hx.
  assert (x ∈ requests (executor_map (λ o, extract_bytes W url o c)
                          (offset <$> ms) sched st).2) as Hpool.
  { cbv zeta in Hx. destruct (executor_map _ _ _ _).1; [|done..].
    by rewrite write_file_requests in Hx. }
  apply (executor_map_requests (λ o, extract_bytes W url o c)
           (offset <$> ms) (λ o, decoded W url o c)
           (λ o, calls W url o c)
           (λ o st', extract_bytes_run W url o c st')
           (λ o, decoded_not_blocked W url o c)) in Hpool.
  destruct Hpool as [?|(o & Ho & Hq)]; [by left|]. right.
  apply list_elem_of_fmap in Ho as (m & -> & Hm).
  exists url, ms, m. do 3 (split; [done|]).
  rewrite calls_spec in Hq.
  destruct (make_client_cases W strategy c Hc)
    as [[-> (ak & sk & tok & ->)]|[-> ->]];
    apply list_elem_of_singleton in Hq; auto.
Qed.

Lemma result_iterator_first_raised {B} (fs1 fs2 : list (outcome B)) e :
  Forall (λ r, ∃ b, r = Returned b) fs1 →
  result_iterator (fs1 ++ Raised e :: fs2) = Raised e.
Proof.
  induction 1 as [|r fs1 [b ->] _ IH]; [done|]. simpl. by rewrite IH.
Qed.

Lemma length_concat_singletons {A B} (f : A → list B) (l : list A) :
  (∀ a, length (f a) = 1%nat) → length (concat (f <$> l)) = length l.
Proof.
  intros Hf. induction l as [|a l IH]; [done|].
  rewrite fmap_cons. simpl. rewrite length_app, Hf. by f_equal.
Qed.

(** X1. When [extract_metadata] returns, it has sent one request for each
    fragment of the table and no other: the requests added to the log are,
    up to their order, the calls of the fragments. *)
Theorem one_request_per_fragment (W : World)
    (slc_name path strategy : string) (sched : list nat) (st : State)
    (url : string) (ms : list XmlMetadata) (c : client) :
  get_download_url W slc_name = ok url →
  json_to_metadata_entries W path = ok ms →
  make_client W strategy = ok (Some c) →
  (extract_metadata W slc_name path strategy sched st).1 = Returned tt →
  requests (extract_metadata W slc_name path strategy sched st).2
    ≡ₚ requests st ++ concat ((λ m, calls W url (offset m) c) <$> ms)
  ∧ length (requests (extract_metadata W slc_name path strategy sched st).2)
    = (length (requests st) + length ms)%nat.
Proof.
  intros Hurl Hms Hc.
  rewrite (extract_metadata_pool_state W _ _ _ _ _ _ _ _
             (preamble_ok W _ _ _ _ _ _ Hurl Hms Hc)).
  cbv zeta.
  pose proof (executor_map_returned_requests (λ o, extract_bytes W url o c)
    (offset <$> ms) (λ o, decoded W url o c) (λ o, calls W url o c)
    (λ o st', extract_bytes_run W url o c st')
    (λ o, decoded_not_blocked W url o c) sched st) as Hsent.
  destruct (executor_map _ _ _ _).1 as [bs|e|]; try done.
  intros _. specialize (Hsent bs eq_refl).
  rewrite write_file_requests.
  rewrite <- list_fmap_compose in Hsent.
  split; [exact Hsent|].
  rewrite Hsent, length_app. f_equal.
  apply length_concat_singletons. intros m. simpl. rewrite calls_spec.
  by destruct (make_client_cases W strategy c Hc)
    as [[_ (ak & sk & tok & ->)]|[_ ->]].
Qed.

Lemma one_request_per_fragment_witness :
  requests (extract_metadata Sample.world "ARCHIVE1" "metadata.json" "http"
              [1%nat; 0%nat] idle).2
  ≡ₚ [HttpGet "https://example.org/SLC/ARCHIVE1.zip" "bytes=0-5";
      HttpGet "https://example.org/SLC/ARCHIVE1.zip" "bytes=6-11"].
Proof.
  destruct (one_request_per_fragment Sample.world "ARCHIVE1" "metadata.json"
    "http" [1%nat; 0%nat] idle "https://example.org/SLC/ARCHIVE1.zip"
    [ {| name := JStr "a"; slc := "ARCHIVE1";
         offset := {| start := 0; stop := 6 |} |};
      {| name := JStr "b"; slc := "ARCHIVE1";
         offset := {| start := 6; stop := 12 |} |} ]
    Session) as [Hperm _].
  - reflexivity.
  - reflexivity.
  - reflexivity.
  - reflexivity.
  - exact Hperm.
Defined.

(** X2. Whatever the outcome and the schedule, every request that
    [extract_metadata] sends is the range request of a fragment of the
    table, to the bucket under the file name of the resolved url with
    strategy ['s3'], to the resolved url with strategy ['http']. *)
Theorem requests_only_declared_ranges (W : World)
    (slc_name path strategy : string) (sched : list nat) (st : State)
    (x : request) :
  x ∈ requests (extract_metadata W slc_name path strategy sched st).2 →
  x ∈ requests st
  ∨ ∃ url ms m,
      get_download_url W slc_name = ok url
      ∧ json_to_metadata_entries W path = ok ms
      ∧ m ∈ ms
      ∧ (strategy = "s3"
         ∧ x = S3GetObject (BUCKET W) (Path_name url)
                 (range_header (offset m))
         ∨ strategy = "http" ∧ x = HttpGet url (range_header (offset m))).
Proof. apply extract_metadata_requests. Qed.

Lemma requests_only_declared_ranges_witness :
  HttpGet "https://example.org/SLC/ARCHIVE1.zip" "bytes=100-109" ∈ []
  ∨ ∃ url ms m,
      get_download_url Sample.world "ARCHIVE1" = ok url
      ∧ json_to_metadata_entries Sample.world "unreachable.json" = ok ms
      ∧ m ∈ ms
      ∧ ("http" = "s3"
         ∧ HttpGet "https://example.org/SLC/ARCHIVE1.zip" "bytes=100-109"
           = S3GetObject (BUCKET Sample.world) (Path_name url)
               (range_header (offset m))
         ∨ "http" = "http"
           ∧ HttpGet "https://example.org/SLC/ARCHIVE1.zip" "bytes=100-109"
             = HttpGet url (range_header (offset m))).
Proof.
  apply (requests_only_declared_ranges Sample.world "ARCHIVE1"
    "unreachable.json" "http" [1%nat] idle).
  vm_compute. apply list_elem_of_here.
Defined.

(** X3. When every task finishes, the exception that [extract_metadata]
    raises is the one of the first failing fragment in the order of the
    table, whatever the order of completion. *)
Theorem first_failure_in_input_order (W : World)
    (slc_name path strategy : string) (sched : list nat) (st : State)
    (url : string) (c : client) (ms1 ms2 : list XmlMetadata)
    (m : XmlMetadata) (e : exn) :
  get_download_url W slc_name = ok url →
  json_to_metadata_entries W path = ok (ms1 ++ m :: ms2) →
  make_client W strategy = ok (Some c) →
  Forall (λ m', ∃ b, decoded W url (offset m') c = Returned b) ms1 →
  decoded W url (offset m) c = Raised e →
  complete (length (ms1 ++ m :: ms2)) sched →
  (extract_metadata W slc_name path strategy sched st).1 = Raised e.
Proof.
  intros Hurl Hms Hc Hok He Hall.
  rewrite (extract_metadata_pool_state W _ _ _ _ _ _ _ _
             (preamble_ok W _ _ _ _ _ _ Hurl Hms Hc)).
  cbv zeta. rewrite (pool_complete W url c _ sched st Hall).
  rewrite fmap_app, fmap_cons, He.
  rewrite result_iterator_first_raised; [done|].
  by apply Forall_fmap.
Qed.

Lemma first_failure_in_input_order_witness :
  (extract_metadata Sample2.world "ARCHIVE1" "late_failure.json" "http"
     [2%nat; 1%nat; 0%nat] idle).1
  = Raised (LibraryError Requests "ConnectionError").
Proof.
  apply (first_failure_in_input_order Sample2.world "ARCHIVE1"
    "late_failure.json" "http" [2%nat; 1%nat; 0%nat] idle
    "https://example.org/SLC/ARCHIVE1.zip" Session
    [ {| name := JStr "a"; slc := "ARCHIVE1";
         offset := {| start := 0; stop := 6 |} |} ]
    [ {| name := JStr "y"; slc := "ARCHIVE1";
         offset := {| start := 200; stop := 210 |} |} ]
    {| name := JStr "x"; slc := "ARCHIVE1";
       offset := {| start := 100; stop := 110 |} |}).
  - reflexivity.
  - reflexivity.
  - reflexivity.
  - repeat constructor. by exists Sample.plain_A.
  - reflexivity.
  - intros i Hi. simpl in Hi.
    destruct i as [|[|[|i]]]; [| | |lia].
    + do 2 apply list_elem_of_further. apply list_elem_of_here.
    + apply list_elem_of_further, list_elem_of_here.
    + apply list_elem_of_here.
Defined.

(** X4. The outcome of [extract_metadata] and the files it leaves do not
    depend on the order in which the fetches complete: two schedules in
    which every task finishes give the same outcome and the same files. *)
Theorem outcome_independent_of_schedule (W : World)
    (slc_name path strategy : string) (sched1 sched2 : list nat)
    (st : State) (ms : list XmlMetadata) :
  json_to_metadata_entries W path = ok ms →
  complete (length ms) sched1 →
  complete (length ms) sched2 →
  (extract_metadata W slc_name path strategy sched1 st).1
    = (extract_metadata W slc_name path strategy sched2 st).1
  ∧ files (extract_metadata W slc_name path strategy sched1 st).2
    = files (extract_metadata W slc_name path strategy sched2 st).2.
Proof.
  intros Hms H1 H2.
  destruct (preamble W slc_name path strategy) as [e|[[url ms'] c]] eqn:Hpre.
  { by rewrite !extract_metadata_preamble, Hpre. }
  rewrite !(extract_metadata_pool_state W _ _ _ _ _ _ _ _ Hpre).
  apply preamble_inv in Hpre as (_ & Hms' & _).
  assert (ms' = ms) as ->.
  { rewrite Hms in Hms'. unfold ok in Hms'. by injection Hms'. }
  cbv zeta.
  pose proof (pool_files W url c ms sched1 st) as Hf1.
  pose proof (pool_files W url c ms sched2 st) as Hf2.
  rewrite (pool_complete W url c ms sched1 st H1) in *.
  rewrite (pool_complete W url c ms sched2 st H2) in *.
  destruct (result_iterator _) as [bs|e|]; cbn [fst snd files];
    [|by rewrite ?Hf1, ?Hf2..].
  apply write_file_same_files. by rewrite Hf1, Hf2.
Qed.

Lemma outcome_independent_of_schedule_witness :
  (extract_metadata Sample.world "ARCHIVE1" "metadata.json" "http"
     [1%nat; 0%nat] idle).1
  = (extract_metadata Sample.world "ARCHIVE1" "metadata.json" "http"
       [0%nat; 1%nat] idle).1
  ∧ files (extract_metadata Sample.world "ARCHIVE1" "metadata.json" "http"
             [1%nat; 0%nat] idle).2
    = files (extract_metadata Sample.world "ARCHIVE1" "metadata.json" "http"
               [0%nat; 1%nat] idle).2.
Proof.
  apply (outcome_independent_of_schedule Sample.world "ARCHIVE1"
    "metadata.json" "http" [1%nat; 0%nat] [0%nat; 1%nat] idle
    [ {| name := JStr "a"; slc := "ARCHIVE1";
         offset := {| start := 0; stop := 6 |} |};
      {| name := JStr "b"; slc := "ARCHIVE1";
         offset := {| start := 6; stop := 12 |} |} ]).
  - reflexivity.
  - intros i Hi. simpl in Hi. destruct i as [|[|i]]; [| |lia].
    + apply list_elem_of_further, list_elem_of_here.
    + apply list_elem_of_here.
  - intros i Hi. simpl in Hi. destruct i as [|[|i]]; [| |lia].
    + apply list_elem_of_here.
    + apply list_elem_of_further, list_elem_of_here.
Defined.

(** X5. [extract_metadata] writes to no file but [<slc_name>.xml]:
    whatever the outcome, every other path holds what it held. *)
Theorem other_files_untouched (W : World)
    (slc_name path strategy : string) (sched : list nat) (st : State)
    (p : string) :
  p ≠ slc_name +:+ ".xml" →
  files (extract_metadata W slc_name path strategy sched st).2 !! p
  = files st !! p.
Proof.
  intros Hp.
  destruct (preamble W slc_name path strategy) as [e|[[url ms] c]] eqn:Hpre.
  { by rewrite extract_metadata_preamble, Hpre. }
  rewrite (extract_metadata_pool_state W _ _ _ _ _ _ _ _ Hpre). cbv zeta.
  pose proof (pool_files W url c ms sched st) as Hf.
  destruct (executor_map _ _ _ _).1 as [bs|e|]; simpl; rewrite ?Hf; try done.
  by rewrite write_file_other, Hf.
Qed.

Lemma other_files_untouched_witness :
  files (extract_metadata Sample.world "ARCHIVE1" "metadata.json" "http"
           [0%nat; 1%nat]
           {| requests := [];
              files := {[ "ARCHIVE2.xml" := Sample.plain_B ]} |}).2
    !! "ARCHIVE2.xml"
  = Some Sample.plain_B.
Proof.
  rewrite (other_files_untouched Sample.world "ARCHIVE1" "metadata.json"
    "http" [0%nat; 1%nat]
    {| requests := []; files := {[ "ARCHIVE2.xml" := Sample.plain_B ]} |}
    "ARCHIVE2.xml").
  - reflexivity.
  - discriminate.
Defined.

(** *** Tables with another archive key, or with an array for a mapping *)

Lemma metadata_loop_rename v k1 k2 keys acc1 acc2 :
  offset <$> acc1 = offset <$> acc2 →
  match metadata_loop v k1 keys acc1, metadata_loop v k2 keys acc2 with
  | inl e1, inl e2 => e1 = e2
  | inr ms1, inr ms2 => offset <$> ms1 = offset <$> ms2
  | _, _ => False
  end.
Proof.
  revert acc1 acc2. induction keys as [|key keys IH]; intros acc1 acc2 Hacc.
  { done. }
  simpl. destruct (entry_offset v key) as [e|o]; simpl; [done|].
  apply IH. rewrite !fmap_app. by f_equal.
Qed.

Lemma seq_index_elem {A} (l : list A) i x : seq_index l i = ok x → x ∈ l.
Proof.
  unfold seq_index. case_decide; [done|].
  destruct (l !! _) eqn:Hl; [|done].
  intros [= <-]. by eapply list_elem_of_lookup_2.
Qed.

(** Only a mapping has an [offset_start]. *)
Lemma offset_start_of_mapping entry x :
  py_getitem entry (JStr "offset_start") = ok x → ∃ d, entry = JDict d.
Proof. destruct entry; try done. by eexists. Qed.

Lemma metadata_loop_array l key keys acc slc_name :
  l = key :: keys →
  ∃ e, metadata_loop (JList l) slc_name l acc = raise e.
Proof.
  intros Hl.
  destruct (entry_offset (JList l) key) as [e|o] eqn:Hentry.
  { eapply metadata_loop_raise; [|exact Hentry].
    rewrite Hl. apply list_elem_of_here. }
  unfold entry_offset in Hentry.
  destruct (py_getitem (JList l) key) as [e|entry] eqn:Hget;
    simpl in Hentry; [done|].
  destruct (py_getitem entry (JStr "offset_start")) as [e|x] eqn:Hstart;
    simpl in Hentry; [done|].
  destruct (offset_start_of_mapping entry x Hstart) as [d ->].
  assert (JDict d ∈ l) as Hin.
  { simpl in Hget. destruct key; try done; by eapply seq_index_elem. }
  by eapply (metadata_loop_raise (JList l) slc_name l (JDict d) acc TypeError).
Qed.

Lemma metadata_loop_string s c s' acc slc_name :
  s = String c s' →
  ∃ e, metadata_loop (JStr s) slc_name (chars s) acc = raise e.
Proof.
  intros ->.
  eapply (metadata_loop_raise (JStr (String c s')) slc_name _
            (JStr (String c EmptyString)) acc TypeError).
  - apply list_elem_of_here.
  - done.
Qed.

(** X6. The archive key of the table is never compared with [slc_name]:
    two tables that differ in the name of their first key, and in what
    follows it, make [extract_metadata] do the same. *)
Theorem archive_key_not_checked (W : World)
    (slc_name path1 path2 strategy : string) (sched : list nat) (st : State)
    (k1 k2 : string) (v : json) (rest1 rest2 : list (string * json)) :
  json_load W path1 = ok (JDict ((k1, v) :: rest1)) →
  json_load W path2 = ok (JDict ((k2, v) :: rest2)) →
  extract_metadata W slc_name path1 strategy sched st
  = extract_metadata W slc_name path2 strategy sched st.
Proof.
  intros H1 H2. rewrite !extract_metadata_preamble. unfold preamble.
  rewrite (json_to_metadata_entries_first W _ _ _ _ H1),
    (json_to_metadata_entries_first W _ _ _ _ H2).
  destruct (get_download_url W slc_name) as [e|url]; simpl; [done|].
  destruct (py_iter v) as [e|keys]; simpl; [done|].
  pose proof (metadata_loop_rename v k1 k2 keys [] [] eq_refl) as Hloop.
  destruct (metadata_loop v k1 keys []) as [e1|ms1],
    (metadata_loop v k2 keys []) as [e2|ms2]; simpl; try done.
  { by subst. }
  destruct (make_client W strategy) as [e|[c|]]; simpl; try done.
  by rewrite Hloop.
Qed.

Lemma archive_key_not_checked_witness :
  extract_metadata Sample2.world "ARCHIVE1" "renamed.json" "http"
    [0%nat; 1%nat] idle
  = extract_metadata Sample2.world "ARCHIVE1" "metadata.json" "http"
      [0%nat; 1%nat] idle.
Proof.
  apply (archive_key_not_checked Sample2.world "ARCHIVE1" "renamed.json"
    "metadata.json" "http" [0%nat; 1%nat] idle "SOME_OTHER_NAME" "ARCHIVE1"
    Sample.archive1 [] []).
  - reflexivity.
  - reflexivity.
Defined.

(** X7. When the value under the archive key is an array or a string
    instead of a mapping, [json_to_metadata_entries] returns the empty list
    if it is empty and raises if it is not. *)
Theorem array_or_string_archive (W : World) (path : string)
    (k : string) (v : json) (rest : list (string * json)) :
  json_load W path = ok (JDict ((k, v) :: rest)) →
  (v = JList [] ∨ v = JStr "" → json_to_metadata_entries W path = ok [])
  ∧ (∀ x l, v = JList (x :: l) →
       ∃ e, json_to_metadata_entries W path = raise e)
  ∧ (∀ c s, v = JStr (String c s) →
       ∃ e, json_to_metadata_entries W path = raise e).
Proof.
  intros Hload. rewrite (json_to_metadata_entries_first W _ _ _ _ Hload).
  split; [|split].
  - by intros [-> | ->].
  - intros x l ->. unfold rbind, py_iter, ok.
    by eapply metadata_loop_array.
  - intros c s ->. unfold rbind, py_iter, ok.
    by eapply metadata_loop_string.
Qed.

Lemma array_or_string_archive_witness :
  json_to_metadata_entries Sample2.world "empty_array.json" = ok []
  ∧ ∃ e, json_to_metadata_entries Sample2.world "array.json" = raise e.
Proof.
  split.
  - apply (array_or_string_archive Sample2.world "empty_array.json"
      "ARCHIVE1" (JList []) []); [reflexivity|by left].
  - apply (array_or_string_archive Sample2.world "array.json"
      "ARCHIVE1" (JList [JInt 0]) [] eq_refl) with (x := JInt 0) (l := []).
    reflexivity.
Defined.

(** X8. With strategy ['s3'], credentials that lack one of [accessKeyId],
    [secretAccessKey] and [sessionToken] make [extract_metadata] raise
    [KeyError] for a missing key, after the table was read and before any
    request. *)
Theorem missing_credential_key (W : World)
    (slc_name path : string) (sched : list nat) (st : State)
    (url : string) (ms : list XmlMetadata) (d : list (string * json))
    (k : string) :
  get_download_url W slc_name = ok url →
  json_to_metadata_entries W path = ok ms →
  get_credentials W = ok (JDict d) →
  k ∈ credential_keys →
  dict_get d k = None →
  ∃ k', k' ∈ credential_keys
        ∧ dict_get d k' = None
        ∧ extract_metadata W slc_name path "s3" sched st
          = (Raised (KeyError (JStr k')), st).
Proof.
  intros Hurl Hms Hcreds Hk Hnone.
  assert (∃ k', k' ∈ credential_keys ∧ dict_get d k' = None
                ∧ make_client W "s3" = raise (KeyError (JStr k')))
    as (k' & Hk' & Hnone' & Hc).
  { unfold make_client. rewrite decide_True by done. rewrite Hcreds.
    unfold credential_keys in *. simpl.
    destruct (dict_get d "accessKeyId") eqn:H1; simpl.
    2:{ exists "accessKeyId". split; [apply list_elem_of_here|done]. }
    destruct (dict_get d "secretAccessKey") eqn:H2; simpl.
    2:{ exists "secretAccessKey".
        split; [apply list_elem_of_further, list_elem_of_here|done]. }
    destruct (dict_get d "sessionToken") eqn:H3; simpl.
    2:{ exists "sessionToken".
        split; [do 2 apply list_elem_of_further; apply list_elem_of_here|].
        done. }
    exfalso. repeat (apply elem_of_cons in Hk as [->|Hk]; [congruence|]).
    by apply elem_of_nil in Hk. }
  exists k'. split; [done|]. split; [done|].
  rewrite extract_metadata_preamble. unfold preamble.
  by rewrite Hurl, Hms, Hc.
Qed.

Lemma missing_credential_key_witness :
  ∃ k', k' ∈ credential_keys
        ∧ dict_get [("accessKeyId", JStr "AK"); ("secretAccessKey", JStr "SK")]
            k' = None
        ∧ extract_metadata Sample2.world "ARCHIVE1" "metadata.json" "s3"
            [0%nat; 1%nat] idle
          = (Raised (KeyError (JStr k')), idle).
Proof.
  apply (missing_credential_key Sample2.world "ARCHIVE1" "metadata.json"
    [0%nat; 1%nat] idle "https://example.org/SLC/ARCHIVE1.zip"
    [ {| name := JStr "a"; slc := "ARCHIVE1";
         offset := {| start := 0; stop := 6 |} |};
      {| name := JStr "b"; slc := "ARCHIVE1";
         offset := {| start := 6; stop := 12 |} |} ]
    [("accessKeyId", JStr "AK"); ("secretAccessKey", JStr "SK")]
    "sessionToken").
  - reflexivity.
  - reflexivity.
  - reflexivity.
  - do 2 apply list_elem_of_further. apply list_elem_of_here.
  - reflexivity.
Defined.

(** *** Ranges that a server can read, and the key of the object *)

Lemma read_number_minus (s : string) : read_number ("-" +:+ s) = None.
Proof. reflexivity. Qed.

Lemma read_byte_range_negative_first (first last : Z) :
  first < 0 →
  read_byte_range ("bytes=" +:+ pretty first +:+ "-" +:+ pretty last) = None.
Proof.
  intros Hf. unfold read_byte_range. rewrite strip_prefix_app.
  destruct first as [|p|p]; [lia..|]. reflexivity.
Qed.

Lemma read_byte_range_negative_last (first last : Z) :
  0 ≤ first → last < 0 →
  read_byte_range ("bytes=" +:+ pretty first +:+ "-" +:+ pretty last) = None.
Proof.
  intros Hf Hl. unfold read_byte_range.
  rewrite strip_prefix_app, (pretty_Z_nonneg first Hf).
  rewrite read_number_pretty by (intros acc; reflexivity).
  rewrite strip_prefix_app.
  destruct last as [|p|p]; [lia..|]. reflexivity.
Qed.

Lemma split_sep_not_nil sep s : split_sep sep s ≠ [].
Proof.
  destruct s as [|c s]; simpl; [done|].
  destruct (Ascii.eqb c sep); [done|]. by destruct (split_sep sep s).
Qed.

Lemma split_sep_app sep (a b : string) :
  split_sep sep (a +:+ String sep b) = split_sep sep a ++ split_sep sep b.
Proof.
  induction a as [|c a IH].
  - change (split_sep sep (String sep b) = [EmptyString] ++ split_sep sep b).
    simpl. by rewrite Ascii.eqb_refl.
  - change (split_sep sep (String c (a +:+ String sep b))
            = split_sep sep (String c a) ++ split_sep sep b).
    simpl. rewrite IH. destruct (Ascii.eqb c sep); [done|].
    pose proof (split_sep_not_nil sep a) as Hne.
    by destruct (split_sep sep a).
Qed.

Lemma split_sep_no_sep sep (s : string) :
  has_char sep s = false → split_sep sep s = [s].
Proof.
  induction s as [|c s IH]; simpl; [done|].
  destruct (Ascii.eqb c sep); [done|]. intros Hs. by rewrite IH.
Qed.

Lemma split_sep_parts sep (s w : string) :
  w ∈ split_sep sep s → has_char sep w = false.
Proof.
  revert w. induction s as [|c s IH]; intros w; simpl.
  { intros Hw. by apply list_elem_of_singleton in Hw as ->. }
  destruct (Ascii.eqb c sep) eqn:Hc.
  - intros Hw. apply elem_of_cons in Hw as [->|Hw]; [done|]. by apply IH.
  - pose proof (split_sep_not_nil sep s) as Hne.
    destruct (split_sep sep s) as [|w0 ws]; [done|].
    intros Hw. apply elem_of_cons in Hw as [->|Hw].
    + simpl. rewrite Hc. apply IH, list_elem_of_here.
    + by apply IH, list_elem_of_further.
Qed.

Lemma Path_name_file (dir file : string) :
  file ≠ "" → file ≠ "." → has_char "/" file = false →
  Path_name (dir +:+ "/" +:+ file) = file.
Proof.
  intros Hne Hdot Hslash. unfold Path_name.
  change (dir +:+ "/" +:+ file) with (dir +:+ String "/" file).
  rewrite split_sep_app, (split_sep_no_sep _ file Hslash), filter_app.
  rewrite (filter_cons_True _ file) by done.
  rewrite filter_nil. by rewrite last_snoc.
Qed.

Lemma Path_name_no_slash (p : string) : has_char "/" (Path_name p) = false.
Proof.
  unfold Path_name.
  destruct (last _) as [w|] eqn:Hlast; [|done]. simpl.
  apply last_Some_elem_of in Hlast.
  apply list_elem_of_filter in Hlast as [_ Hw].
  by eapply split_sep_parts.
Qed.

(** X9. The header that [extract_bytes] sends reads as a byte range
    [first-last] exactly when [start >= 0] and [stop >= 1], and then as
    first [start], last [stop - 1]; with a negative start, or with a stop
    below one, it is no such range. *)
Theorem range_header_readable (o : Offset) :
  read_byte_range (range_header o)
  = if decide (0 ≤ start o ∧ 1 ≤ stop o)
    then Some (start o, stop o - 1)
    else None.
Proof.
  unfold range_header. case_decide as Hvalid.
  - apply read_byte_range_inclusive; lia.
  - destruct (decide (start o < 0)).
    + by apply read_byte_range_negative_first.
    + apply read_byte_range_negative_last; lia.
Qed.

(** X10. Two offsets with [start >= 0] and [stop >= 1] that give the same
    range header are the same offset. *)
Theorem range_header_injective (o1 o2 : Offset) :
  0 ≤ start o1 → 1 ≤ stop o1 →
  0 ≤ start o2 → 1 ≤ stop o2 →
  range_header o1 = range_header o2 → o1 = o2.
Proof.
  intros Hs1 He1 Hs2 He2 Heq.
  assert (Some (start o1, stop o1 - 1) = Some (start o2, stop o2 - 1))
    as Hread.
  { rewrite <- (read_byte_range_inclusive (start o1) (stop o1 - 1))
      by lia.
    rewrite <- (read_byte_range_inclusive (start o2) (stop o2 - 1))
      by lia.
    unfold range_header in Heq. by rewrite Heq. }
  injection Hread as Hstart Hstop.
  destruct o1 as [s1 e1], o2 as [s2 e2]. simpl in *.
  f_equal; lia.
Qed.

Lemma range_header_injective_witness :
  {| start := 0; stop := 6 |} = {| start := 0; stop := 5 + 1 |}.
Proof.
  apply (range_header_injective {| start := 0; stop := 6 |}
           {| start := 0; stop := 5 + 1 |}).
  - simpl. lia.
  - simpl. lia.
  - simpl. lia.
  - simpl. lia.
  - reflexivity.
Defined.

(** X11. The object-store branch asks the bucket for the file name of the
    url: for a url that ends in [/<file>], whatever comes before, the key
    of the request is [<file>]; and no key ever contains a slash. *)
Theorem s3_key_is_file_name (W : World) (dir file : string) (o : Offset)
    (ak sk tok : json) (st : State) :
  file ≠ "" → file ≠ "." → has_char "/" file = false →
  requests (extract_bytes W (dir +:+ "/" +:+ file) o (BaseClient ak sk tok)
              st).2
    = requests st ++ [S3GetObject (BUCKET W) file (range_header o)]
  ∧ ∀ url, has_char "/" (Path_name url) = false.
Proof.
  intros Hne Hdot Hslash. split; [|apply Path_name_no_slash].
  rewrite extract_bytes_run, calls_spec. simpl.
  by rewrite Path_name_file.
Qed.

Lemma s3_key_is_file_name_witness :
  requests (extract_bytes Sample.world
              ("https://example.org/SLC" +:+ "/" +:+ "ARCHIVE1.zip")
              {| start := 0; stop := 6 |}
              (BaseClient (JStr "AK") (JStr "SK") (JStr "TOK")) idle).2
  = [S3GetObject "bucket" "ARCHIVE1.zip" "bytes=0-5"].
Proof.
  destruct (s3_key_is_file_name Sample.world "https://example.org/SLC"
    "ARCHIVE1.zip" {| start := 0; stop := 6 |}
    (JStr "AK") (JStr "SK") (JStr "TOK") idle) as [Hkey _].
  - discriminate.
  - discriminate.
  - reflexivity.
  - exact Hkey.
Defined.

(** X12. [main] always calls [extract_metadata] with strategy ['s3']:
    every request it sends goes to the bucket, never to a url over HTTP;
    and when argparse exits, nothing is sent or written. *)
Theorem main_only_s3 (W : World)
    (parse_args : list string → Z + (string * string))
    (argv : list string) (sched : list nat) (st : State) :
  (∀ x, x ∈ requests (main W parse_args argv sched st).2 →
        x ∈ requests st ∨ ∃ key range, x = S3GetObject (BUCKET W) key range)
  ∧ (∀ status, parse_args argv = inl status →
       main W parse_args argv sched st = (Exited status, st)).
Proof.
  split.
  - intros x Hx. unfold main in Hx.
    destruct (parse_args argv) as [status|[slc_name metadata_path]];
      [by left|].
    destruct (extract_metadata W slc_name metadata_path "s3" sched st)
      as [r st'] eqn:Hrun.
    simpl in Hx.
    assert (x ∈ requests
              (extract_metadata W slc_name metadata_path "s3" sched st).2)
      as Hx' by by rewrite Hrun.
    apply extract_metadata_requests in Hx'
      as [?|(url & ms & m & _ & _ & _ & [[_ ->]|[Hs _]])].
    + by left.
    + right. by eexists _, _.
    + discriminate.
  - intros status Hexit. unfold main. by rewrite Hexit.
Qed.

Lemma main_only_s3_witness :
  S3GetObject "bucket" "ARCHIVE1.zip" "bytes=0-5" ∈ []
  ∨ ∃ key range,
      S3GetObject "bucket" "ARCHIVE1.zip" "bytes=0-5"
      = S3GetObject (BUCKET Sample.world) key range.
Proof.
  destruct (main_only_s3 Sample.world Sample2.parse_args
    ["ARCHIVE1"; "metadata.json"] [0%nat] idle) as [Hreq _].
  apply Hreq. vm_compute. apply list_elem_of_here.
Defined.

(** *** The loop as a map over the keys *)

Lemma metadata_loop_map v k keys acc ms :
  metadata_loop v k keys acc = ok ms
  ↔ ∃ ms', ms = acc ++ ms'
           ∧ Forall2 (λ key m, entry_offset v key = ok (offset m)
                               ∧ name m = key ∧ slc m = k) keys ms'.
Proof.
  revert acc ms. induction keys as [|key keys IH]; intros acc ms; simpl.
  - split.
    + intros [= <-]. exists []. split; [by rewrite app_nil_r|constructor].
    + intros (ms' & -> & Hall). apply Forall2_nil_inv_l in Hall as ->.
      by rewrite app_nil_r.
  - destruct (entry_offset v key) as [e|o] eqn:Hentry; simpl.
    + split; [done|]. intros (ms' & _ & Hall).
      apply Forall2_cons_inv_l in Hall as (m & ms'' & (Hm & _) & _ & _).
      rewrite Hentry in Hm. unfold ok in Hm. discriminate Hm.
    + rewrite IH. split.
      * intros (ms' & -> & Hall).
        exists ({| name := key; slc := k; offset := o |} :: ms').
        split; [by rewrite <- app_assoc|]. by constructor.
      * intros (ms' & -> & Hall).
        apply Forall2_cons_inv_l in Hall
          as (m & ms'' & (Hm & Hname & Hslc) & Hall & ->).
        exists ms''. split; [|done].
        rewrite <- app_assoc. simpl. do 2 f_equal.
        rewrite Hentry in Hm. unfold ok in Hm. injection Hm as ->.
        destruct m as [n s o']. simpl in *. by subst.
Qed.

(** X13. [json_to_metadata_entries] returns a list exactly when an
    [Offset] can be built from the entry of every key of the first
    archive, and the list then has one descriptor per key, in the order of
    the keys, with that key as name, the archive key as [slc] and that
    offset. *)
Theorem entries_follow_the_keys (W : World) (path : string)
    (k : string) (v : json) (rest : list (string * json))
    (keys : list json) (ms : list XmlMetadata) :
  json_load W path = ok (JDict ((k, v) :: rest)) →
  py_iter v = ok keys →
  json_to_metadata_entries W path = ok ms
  ↔ Forall2 (λ key m, entry_offset v key = ok (offset m)
                      ∧ name m = key ∧ slc m = k) keys ms.
Proof.
  intros Hload Hkeys.
  rewrite (json_to_metadata_entries_first W _ _ _ _ Hload), Hkeys.
  unfold rbind, ok. rewrite (metadata_loop_map v k keys [] ms). split.
  - by intros (ms' & -> & Hall).
  - intros Hall. by exists ms.
Qed.

Lemma entries_follow_the_keys_witness :
  json_to_metadata_entries Sample.world "metadata.json"
  = ok [ {| name := JStr "a"; slc := "ARCHIVE1";
            offset := {| start := 0; stop := 6 |} |};
         {| name := JStr "b"; slc := "ARCHIVE1";
            offset := {| start := 6; stop := 12 |} |} ].
Proof.
  apply (entries_follow_the_keys Sample.world "metadata.json" "ARCHIVE1"
    Sample.archive1 [] [JStr "a"; JStr "b"]).
  - reflexivity.
  - reflexivity.
  - repeat constructor.
Defined.

(** X14. The output file is opened only after every fragment has been
    fetched and decoded: when it cannot be opened, [extract_metadata]
    raises the exception of [open] after one request per fragment has been
    sent, and every file is as it was. *)
Theorem output_open_failure (W : World)
    (slc_name path strategy : string) (sched : list nat) (st : State)
    (url : string) (ms : list XmlMetadata) (c : client) (bufs : list bytes)
    (e : exn) :
  get_download_url W slc_name = ok url →
  json_to_metadata_entries W path = ok ms →
  make_client W strategy = ok (Some c) →
  Forall2 (fragment_bytes W url c) ms bufs →
  complete (length ms) sched →
  open_wb W (slc_name +:+ ".xml") = raise e →
  (extract_metadata W slc_name path strategy sched st).1 = Raised e
  ∧ files (extract_metadata W slc_name path strategy sched st).2 = files st
  ∧ length (requests (extract_metadata W slc_name path strategy sched st).2)
    = (length (requests st) + length ms)%nat.
Proof.
  intros Hurl Hms Hc Hfrag Hall Hopen.
  rewrite (extract_metadata_pool_state W _ _ _ _ _ _ _ _
             (preamble_ok W _ _ _ _ _ _ Hurl Hms Hc)).
  cbv zeta.
  assert ((executor_map (λ o, extract_bytes W url o c) (offset <$> ms)
             sched st).1 = Returned bufs) as Hpool.
  { rewrite pool_complete by done.
    apply result_iterator_returned, Forall2_fmap_l.
    eapply Forall2_impl; [exact Hfrag|].
    intros m b Hb. by apply fragment_bytes_decoded. }
  pose proof (executor_map_returned_requests (λ o, extract_bytes W url o c)
    (offset <$> ms) (λ o, decoded W url o c) (λ o, calls W url o c)
    (λ o st', extract_bytes_run W url o c st')
    (λ o, decoded_not_blocked W url o c) sched st bufs Hpool) as Hsent.
  rewrite Hpool, (write_file_open_fails W _ _ _ e Hopen). simpl.
  split; [done|]. split; [apply pool_files|].
  rewrite Hsent, length_app. f_equal.
  rewrite <- list_fmap_compose.
  apply length_concat_singletons. intros m. simpl. rewrite calls_spec.
  by destruct (make_client_cases W strategy c Hc)
    as [[_ (ak & sk & tok & ->)]|[_ ->]].
Qed.

Lemma output_open_failure_witness :
  let run := extract_metadata Sample.world "nodir/ARCHIVE1" "metadata.json"
               "http" [1%nat; 0%nat] idle in
  run.1 = Raised (OSError "FileNotFoundError")
  ∧ files run.2 = ∅
  ∧ length (requests run.2) = 2%nat.
Proof.
  apply (output_open_failure Sample.world "nodir/ARCHIVE1" "metadata.json"
    "http" [1%nat; 0%nat] idle "https://example.org/SLC/nodir/ARCHIVE1.zip"
    [ {| name := JStr "a"; slc := "ARCHIVE1";
         offset := {| start := 0; stop := 6 |} |};
      {| name := JStr "b"; slc := "ARCHIVE1";
         offset := {| start := 6; stop := 12 |} |} ]
    Session [Sample.plain_A; Sample.plain_A]).
  - reflexivity.
  - reflexivity.
  - reflexivity.
  - repeat constructor.
    + exists Sample.stream_A. split; reflexivity.
    + exists Sample.stream_A. split; reflexivity.
  - intros i Hi. simpl in Hi. destruct i as [|[|i]]; [| |lia].
    + apply list_elem_of_further, list_elem_of_here.
    + apply list_elem_of_here.
  - reflexivity.
Defined.
